(** * h3ToGeo: the stdin/stdout filter from H3 indexes to cell centre points

    A shallow embedding of [src/apps/filters/h3ToGeo.c] ([doCell] and [main])
    together with the parts of the C library the filter calls ([fgets],
    [feof], [printf]) and the collaborators declared in [h3api.h], [kml.h]
    and [utility.h].  A run of the filter is the sequence of its reads of
    stdin and of its writes, the stream it leaves and the way it ends. *)

From Stdlib Require Import ZArith List String Ascii Bool Lia.
From Stdlib Require Import SpecFloat.
From Stdlib Require DecimalString HexadecimalString.
Import ListNotations.

Open Scope string_scope.

(** ** Text *)

Module Text.

Definition newline : ascii := "010"%char.
Definition NUL : ascii := "000"%char.

(** The first [n] characters of [s]. *)
Fixpoint take (n : nat) (s : string) : string :=
  match n, s with
  | S k, String c r => String c (take k r)
  | _, _ => ""
  end.

(** [s] without its first [n] characters. *)
Fixpoint drop (n : nat) (s : string) : string :=
  match n, s with
  | S k, String _ r => drop k r
  | _, _ => s
  end.

(** A [char] array seen as a C string: the characters before the first NUL. *)
Fixpoint c_str (s : string) : string :=
  match s with
  | "" => ""
  | String c r => if (c =? NUL)%char then "" else String c (c_str r)
  end.

(** [n] copies of [c]: [char buf[n] = {c}] for [c = NUL]. *)
Fixpoint replicate (n : nat) (c : ascii) : string :=
  match n with
  | O => ""
  | S k => String c (replicate k c)
  end.

(** [c] does not occur in [s]. *)
Fixpoint lacks (c : ascii) (s : string) : bool :=
  match s with
  | "" => true
  | String d r => negb (d =? c)%char && lacks c r
  end.

Definition is_digit (c : ascii) : bool :=
  ((48 <=? nat_of_ascii c) && (nat_of_ascii c <=? 57))%nat.

Definition digit_val (c : ascii) : nat := nat_of_ascii c - 48.

Fixpoint all_digits (s : string) : bool :=
  match s with
  | "" => true
  | String c r => is_digit c && all_digits r
  end.

(** Splits [s] at its first ['.']. *)
Fixpoint split_point (s : string) : option (string * string) :=
  match s with
  | "" => None
  | String c r =>
      if (c =? ".")%char then Some ("", r)
      else match split_point r with
           | Some (i, f) => Some (String c i, f)
           | None => None
           end
  end.

(** The pattern [-?\d+\.\d{prec}]: an optional sign, at least one digit, a
    point and exactly [prec] digits. *)
Definition is_fixed_point (prec : nat) (s : string) : bool :=
  let body := match s with
              | String c r => if (c =? "-")%char then r else s
              | "" => s
              end in
  match split_point body with
  | Some (i, f) =>
      negb (i =? "") && all_digits i && all_digits f && (length f =? prec)%nat
  | None => false
  end.

End Text.

(** ** The C library: formatted output of [double] *)

Module Stdio.
Import Text.

(** A C [double]: an IEEE 754 binary64 datum, [(-1)^s * m * 2^e] when finite. *)
Definition double : Set := spec_float.

Definition is_finite (d : double) : bool :=
  match d with
  | S754_zero _ | S754_finite _ _ _ => true
  | S754_infinity _ | S754_nan => false
  end.

Definition digit_char (d : Z) : ascii := ascii_of_nat (48 + Z.to_nat d).

(** The [n] low decimal digits of [v], zero padded. *)
Fixpoint frac_digits (n : nat) (v : Z) : string :=
  match n with
  | O => ""
  | S k => frac_digits k (v / 10) ++ String (digit_char (v mod 10)) ""
  end.

(** The decimal numeral of [v >= 0], without leading zeros. *)
Definition int_digits (v : Z) : string :=
  DecimalString.NilZero.string_of_uint (N.to_uint (Z.to_N v)).

(** [num / den] rounded to the nearest integer, ties to even (the default
    rounding direction). *)
Definition round_half_even (num den : Z) : Z :=
  let q := (num / den)%Z in
  let r := (num mod den)%Z in
  match (2 * r ?= den)%Z with
  | Lt => q
  | Gt => (q + 1)%Z
  | Eq => if Z.even q then q else (q + 1)%Z
  end.

(** [m * 2^e * 10^prec] rounded to an integer. *)
Definition scaled (prec : nat) (m : positive) (e : Z) : Z :=
  let num := (Z.pos m * 10 ^ Z.of_nat prec)%Z in
  if (0 <=? e)%Z then (num * 2 ^ e)%Z else round_half_even num (2 ^ (- e)).

(** [q / 10^prec] in fixed-point notation with [prec] fractional digits. *)
Definition fixed (prec : nat) (q : Z) : string :=
  let unit := (10 ^ Z.of_nat prec)%Z in
  int_digits (q / unit)
  ++ match prec with
     | O => ""
     | S _ => String "." (frac_digits prec (q mod unit))
     end.

Definition sign (s : bool) : string := if s then "-" else "".

(** The conversion [%.<prec>f] (and [%.<prec>lf]: the [l] has no effect on
    [f]).  Infinities and NaNs are written in the [inf] / [nan] style. *)
Definition fmt_f (prec : nat) (d : double) : string :=
  match d with
  | S754_zero s => sign s ++ fixed prec 0
  | S754_infinity s => sign s ++ "inf"
  | S754_nan => "nan"
  | S754_finite s m e => sign s ++ fixed prec (scaled prec m e)
  end.

(** Where [printf] stands in its format. *)
Inductive conv_state : Set :=
| Literal                       (* ordinary characters *)
| Percent                       (* after ['%'] *)
| Precision (p : nat)           (* in the digits after ['.'] *)
| Length (p : option nat).      (* after the length modifier ['l'] *)

Definition emit_f (p : option nat) (args : list double) : string :=
  match args with
  | a :: _ => fmt_f (match p with Some n => n | None => 6 end) a
  | [] => ""
  end.

(** [printf] for formats made of ordinary characters, [%%] and the
    conversions [%f], [%.Nf], [%lf], [%.Nlf] over [double] arguments.  Any
    other directive is copied as it stands. *)
Fixpoint printf_from (st : conv_state) (format : string) (args : list double)
  : string :=
  match format with
  | "" => ""
  | String c rest =>
      match st with
      | Literal =>
          if (c =? "%")%char then printf_from Percent rest args
          else String c (printf_from Literal rest args)
      | Percent =>
          if (c =? ".")%char then printf_from (Precision 0) rest args
          else if (c =? "l")%char then printf_from (Length None) rest args
          else if (c =? "f")%char
               then emit_f None args ++ printf_from Literal rest (tl args)
          else String c (printf_from Literal rest args)
      | Precision p =>
          if is_digit c
          then printf_from (Precision (10 * p + digit_val c)) rest args
          else if (c =? "l")%char then printf_from (Length (Some p)) rest args
          else if (c =? "f")%char
               then emit_f (Some p) args ++ printf_from Literal rest (tl args)
          else String c (printf_from Literal rest args)
      | Length p =>
          if (c =? "f")%char
          then emit_f p args ++ printf_from Literal rest (tl args)
          else String c (printf_from Literal rest args)
      end
  end.

Definition printf (format : string) (args : list double) : string :=
  printf_from Literal format args.


(** *** Input streams *)

(** What a read finds once the pending characters are used up. *)
Inductive stream_end : Set := EndOfFile | ReadError.

Record FILE : Set := mkFILE {
  pending : string;
  at_end : stream_end;
  eof_indicator : bool;
  error_indicator : bool }.

(** A stream on which nothing has been read yet. *)
Definition stream_of (data : string) (e : stream_end) : FILE :=
  mkFILE data e false false.

(** Reads at most [n] characters of [s], stopping after a newline.  The
    flag tells that a read was attempted with nothing left in [s]. *)
Fixpoint read_line (n : nat) (s : string) : string * string * bool :=
  match n with
  | O => ("", s, false)
  | S k =>
      match s with
      | "" => ("", "", true)
      | String c r =>
          if (c =? newline)%char then (String c "", r, false)
          else let '(l, r', x) := read_line k r in (String c l, r', x)
      end
  end.

(** [fgets(buff, n, stream)]: at most [n - 1] characters, up to and
    including a newline.  [None] is the null pointer: end-of-file with no
    character read, or a read error. *)
Definition fgets (n : nat) (stream : FILE) : option string * FILE :=
  let '(l, rest, exhausted) := read_line (n - 1) (pending stream) in
  if exhausted then
    match at_end stream with
    | EndOfFile =>
        (match l with "" => None | _ => Some l end,
         mkFILE "" EndOfFile true (error_indicator stream))
    | ReadError =>
        (None, mkFILE "" ReadError (eof_indicator stream) true)
    end
  else
    (Some l,
     mkFILE rest (at_end stream) (eof_indicator stream) (error_indicator stream)).

Definition feof (stream : FILE) : bool := eof_indicator stream.

End Stdio.

(** ** The collaborators of the filter *)

Module Lib.
Import Text Stdio.

(** [H3Index] is [uint64_t]. *)
Definition H3Index : Set := Z.

Record GeoCoord : Set := mkGeoCoord { lat : double; lon : double }.

(** The functions of [h3api.h] the filter calls.  [h3ToGeo h] is the value
    left in [*g]; [h3ToString h sz] is the string left in a buffer of [sz]
    characters; [stringToH3 buff] is the value returned for the array
    [buff] as [fgets] filled it, of which the C function reads the C string,
    the characters before the first NUL ([c_str buff]). *)
Class H3Api : Type := {
  h3ToGeo : H3Index -> GeoCoord;
  radsToDegs : double -> double;
  h3ToString : H3Index -> nat -> string;
  stringToH3 : string -> H3Index }.

(** What the filter writes on standard output, call by call. *)
Inductive output : Set :=
| KmlHeader (name desc : string)
| KmlPlacemark (label : string) (lon_deg lat_deg : double)
| KmlFooter
| Printed (text : string).

(** What the filter does, in order. *)
Inductive event : Set :=
| Read (r : option string)     (* a call of [fgets] on stdin and its result *)
| Out (o : output)
| Diagnostic (msg : string).

(** [utility.h] is not among the sources; [main] itself gives
    [BUFF_SIZE - 1 = 255] (the comments of [kmlNameArg] and [kmlDescArg]). *)
Definition BUFF_SIZE : nat := 256.

(** Modelled from the spec: [kmlPtsHeader] of [kml.h], which is not among the
    sources: the document header, holding the name and the description. *)
Definition kmlPtsHeader (name desc : string) : list output :=
  [KmlHeader name desc].

(** Modelled from the spec: [kmlPtsFooter] of [kml.h], which is not among the
    sources: the document footer. *)
Definition kmlPtsFooter : list output := [KmlFooter].

(** Modelled from the spec: [outputPointKML] of [kml.h], which is not among
    the sources: one placemark, its label the given name and its point
    geometry lon,lat, in degrees for display. *)
Definition outputPointKML `{H3Api} (g : GeoCoord) (name : string)
  : list output :=
  [KmlPlacemark name (radsToDegs (lon g)) (radsToDegs (lat g))].

(** Modelled from the spec: [error] of [utility.h], which is not among the
    sources: a diagnostic message, and the process is aborted (the caller
    does not get control back). *)
Definition error (msg : string) : list event := [Diagnostic msg].

(** *** Command-line arguments *)

(** The objects [main] binds flag values to: [&index], [&userKmlName],
    [&userKmlDesc]. *)
Inductive slot : Set := SlotIndex | SlotKmlName | SlotKmlDesc.

Record Arg : Set := mkArg {
  names : list string;
  scanFormat : option string;
  valueName : option string;
  value : option slot;
  helpText : string;
  found : bool }.

Record locals : Set := mkLocals {
  index : H3Index;
  userKmlName : string;
  userKmlDesc : string }.

Inductive conversion : Set :=
| ConvChars (width : nat)
| ConvHex.

Definition or_default (d : nat) (o : option nat) : nat :=
  match o with Some n => n | None => d end.

(** The directive after ['%']: [<width>c], or [lx] ([PRIx64]). *)
Fixpoint conversion_of (width : option nat) (f : string) : option conversion :=
  match f with
  | "" => None
  | String c rest =>
      if is_digit c
      then conversion_of (Some (10 * or_default 0 width + digit_val c)) rest
      else if (c =? "c")%char
           then match rest with
                | "" => Some (ConvChars (or_default 1 width))
                | _ => None
                end
      else if (rest =? "x") && (c =? "l")%char then Some ConvHex
      else None
  end.

Definition scan_format (f : string) : option conversion :=
  match f with
  | String c rest => if (c =? "%")%char then conversion_of None rest else None
  | "" => None
  end.

Definition PRIx64 : string := "lx".

Definition hex_val (c : ascii) : option Z :=
  let n := nat_of_ascii c in
  if is_digit c then Some (Z.of_nat (n - 48))
  else if ((97 <=? n) && (n <=? 102))%nat then Some (Z.of_nat (n - 87))
  else if ((65 <=? n) && (n <=? 70))%nat then Some (Z.of_nat (n - 55))
  else None.

(** The digits of a hexadecimal numeral at the head of [s], as [strtoul]
    accumulates them in 64 bits: a value that does not fit is [ULONG_MAX].
    [None]: no digit. *)
Fixpoint scan_hex (acc : option Z) (s : string) : option Z :=
  match s with
  | "" => acc
  | String c r =>
      match hex_val c with
      | Some d =>
          let a := match acc with Some v => v | None => 0%Z end in
          let v := (16 * a + d)%Z in
          scan_hex (Some (if (v <? 2 ^ 64)%Z then v else (2 ^ 64 - 1)%Z)) r
      | None => acc
      end
  end.

(** White space as [isspace] has it. *)
Definition is_space (c : ascii) : bool :=
  let n := nat_of_ascii c in
  ((n =? 32) || ((9 <=? n) && (n <=? 13)))%nat.

Fixpoint skip_space (s : string) : string :=
  match s with
  | String c r => if is_space c then skip_space r else s
  | "" => s
  end.

(** The numeral after the sign: an optional [0x] or [0X], then the digits.
    A prefix with no digit after it is not a numeral. *)
Definition scan_prefixed (s : string) : option Z :=
  match s with
  | String c (String x r) =>
      if ((c =? "0") && ((x =? "x") || (x =? "X")))%char
      then scan_hex None r
      else scan_hex None s
  | _ => scan_hex None s
  end.

(** The conversion [%lx] ([PRIx64]) of an input string: white space is
    skipped, then comes an optional sign, and the value of a numeral with a
    minus sign is negated in 64 bits. *)
Definition scan_lx (s : string) : option Z :=
  match skip_space s with
  | String c r =>
      if (c =? "-")%char
      then option_map (fun v => ((2 ^ 64 - v) mod 2 ^ 64)%Z) (scan_prefixed r)
      else if (c =? "+")%char then scan_prefixed r
      else scan_prefixed (String c r)
  | "" => None
  end.

(** Characters written at the start of a [char] array. *)
Definition overwrite (src buf : string) : string :=
  src ++ drop (length src) buf.

Definition write_chars (sl : slot) (src : string) (m : locals) : locals :=
  match sl with
  | SlotIndex => m
  | SlotKmlName => mkLocals (index m) (overwrite src (userKmlName m)) (userKmlDesc m)
  | SlotKmlDesc => mkLocals (index m) (userKmlName m) (overwrite src (userKmlDesc m))
  end.

Definition write_u64 (sl : slot) (v : Z) (m : locals) : locals :=
  match sl with
  | SlotIndex => mkLocals v (userKmlName m) (userKmlDesc m)
  | SlotKmlName | SlotKmlDesc => m
  end.

(** Modelled from the spec: how [parseArgs] of [utility.h], which is not among
    the sources, parses and stores the value bound to a flag using the flag's
    scan format: a string flag is capped to the width of its format
    (truncated, never overflowing the destination), an index flag is decoded
    from hexadecimal text; [None] is a malformed value. *)
Definition scan_value (a : Arg) (text : string) (m : locals) : option locals :=
  match scanFormat a, value a with
  | Some f, Some sl =>
      match scan_format f with
      | Some (ConvChars w) => Some (write_chars sl (take w (c_str text)) m)
      | Some ConvHex =>
          match scan_lx text with
          | Some v => Some (write_u64 sl v m)
          | None => None
          end
      | None => None
      end
  | _, _ => None
  end.

(** [parseArgs] of [utility.h], which is not among the sources:
    [parseArgs argv args helpArg helpText m] is the value returned (zero on
    success), with the descriptors and the objects bound to them as the call
    leaves them.  [helpArg] is the place of the help descriptor in [args];
    [m] holds the bound objects before the call. *)
Class ArgParser : Type := {
  parseArgs :
    list string -> list Arg -> nat -> string -> locals
    -> Z * list Arg * locals }.

Definition found_at (i : nat) (args : list Arg) : bool :=
  match nth_error args i with
  | Some a => found a
  | None => false
  end.

End Lib.

(** ** The filter: [doCell] and [main] *)

Module Filter.
Import Text Stdio Lib.

Section WithApi.
Context `{api : H3Api} `{parser : ArgParser}.

Definition doCell (h : H3Index) (isKmlOut : bool) : list output :=
  let g := h3ToGeo h in
  if isKmlOut then
    let label := h3ToString h BUFF_SIZE in
    outputPointKML g label
  else
    [Printed (printf ("%.10lf %.10lf" ++ String newline "")
                     [radsToDegs (lat g); radsToDegs (lon g)])].

(** How the loop over stdin is left. *)
Inductive loop_end : Set :=
| Break          (* [break]: end-of-file *)
| Exit           (* [error] ended the process *)
| Unfinished.    (* the iteration bound of the model was reached *)

(** The [while (1)] loop of [main] over stdin, at most [fuel] iterations. *)
Fixpoint read_loop (fuel : nat) (isKmlOut : bool) (stdin : FILE)
  : list event * FILE * loop_end :=
  match fuel with
  | O => ([], stdin, Unfinished)
  | S k =>
      match fgets BUFF_SIZE stdin with
      | (None, stdin') =>
          if feof stdin' then ([Read None], stdin', Break)
          else (Read None :: error "reading H3 index from stdin", stdin', Exit)
      | (Some buff, stdin') =>
          let h3 := stringToH3 buff in
          let '(t, stdin'', e) := read_loop k isKmlOut stdin' in
          (Read (Some buff) :: map Out (doCell h3 isKmlOut) ++ t, stdin'', e)
      end
  end.

(** How the process ends. *)
Inductive termination : Set :=
| Return (status : Z)   (* a [return] statement of [main] *)
| EndOfMain             (* the closing brace of [main]: status 0 *)
| Aborted               (* ended by [error] *)
| Running.              (* the iteration bound of the model was reached *)

Record run : Set := mkRun {
  trace : list event;
  stdin_after : FILE;
  ending : termination }.

(** What [parseArgs] returned and left in the descriptors and in the objects
    bound to them. *)
Record parsed : Set := mkParsed {
  rc : Z;
  helpArg_found : bool;
  indexArg_found : bool;
  kmlArg_found : bool;
  kmlNameArg_found : bool;
  kmlDescArg_found : bool;
  vars : locals }.

(** [main] from the test of the result of [parseArgs] on. *)
Definition main_from (p : parsed) (stdin : FILE) : run :=
  if negb (rc p =? 0)%Z then
    mkRun [] stdin (Return (if helpArg_found p then 0%Z else 1%Z))
  else
    let header :=
      if kmlArg_found p then
        let kmlName :=
          if kmlNameArg_found p then c_str (userKmlName (vars p))
          else "geo from H3" in
        let kmlDesc :=
          if kmlDescArg_found p then c_str (userKmlDesc (vars p))
          else "from h3ToGeo" in
        map Out (kmlPtsHeader kmlName kmlDesc)
      else [] in
    let '(body, stdin', e) :=
      if indexArg_found p then
        (map Out (doCell (index (vars p)) (kmlArg_found p)), stdin, Break)
      else
        read_loop (S (length (pending stdin))) (kmlArg_found p) stdin in
    match e with
    | Break =>
        mkRun (header ++ body
               ++ (if kmlArg_found p then map Out kmlPtsFooter else []))
              stdin' EndOfMain
    | Exit => mkRun (header ++ body) stdin' Aborted
    | Unfinished => mkRun (header ++ body) stdin' Running
    end.

Definition helpArg : Arg :=
  mkArg ["-h"; "--help"] None None None "Show this help message." false.

Definition indexArg : Arg :=
  mkArg ["-i"; "--index"] (Some ("%" ++ PRIx64)) (Some "index") (Some SlotIndex)
        "Index, or not specified to read indexes from standard in." false.

Definition kmlArg : Arg :=
  mkArg ["-k"; "--kml"] None None None "Print output in KML format." false.

Definition kmlNameArg : Arg :=
  mkArg ["--kn"; "--kml-name"] (Some "%255c") (Some "name") (Some SlotKmlName)
        "Name of the KML file." false.

Definition kmlDescArg : Arg :=
  mkArg ["--kd"; "--kml-description"] (Some "%255c") (Some "description")
        (Some SlotKmlDesc) "Description of the KML file." false.

(** The objects of [main] before [parseArgs] is called: [index = 0] and the
    two zeroed arrays. *)
Definition initial_locals : locals :=
  let index := 0%Z in
  let userKmlName := replicate BUFF_SIZE NUL in
  let userKmlDesc := replicate BUFF_SIZE NUL in
  mkLocals index userKmlName userKmlDesc.

Definition args : list Arg :=
  [helpArg; indexArg; kmlArg; kmlNameArg; kmlDescArg].

(** The call of [parseArgs] in [main] and what [main] reads of its effect. *)
Definition parse (argv : list string) : parsed :=
  let '(r, args', m) :=
    parseArgs argv args 0
      "Converts indexes to latitude/longitude center coordinates in degrees"
      initial_locals in
  mkParsed r (found_at 0 args') (found_at 1 args') (found_at 2 args')
           (found_at 3 args') (found_at 4 args') m.

Definition main (argv : list string) (stdin : FILE) : run :=
  main_from (parse argv) stdin.

(** The status the process exits with, where [main] gives it. *)
Definition exit_status (t : termination) : option Z :=
  match t with
  | Return s => Some s
  | EndOfMain => Some 0%Z
  | Aborted | Running => None
  end.

(** *** Reading a run *)

Fixpoint stdout (t : list event) : list output :=
  match t with
  | [] => []
  | Out o :: t' => o :: stdout t'
  | _ :: t' => stdout t'
  end.

(** The buffers the successful reads of stdin returned, in order. *)
Fixpoint reads (t : list event) : list string :=
  match t with
  | [] => []
  | Read (Some b) :: t' => b :: reads t'
  | _ :: t' => reads t'
  end.

(** The calls of [fgets] on stdin, successful or not. *)
Fixpoint read_calls (t : list event) : nat :=
  match t with
  | [] => 0
  | Read _ :: t' => S (read_calls t')
  | _ :: t' => read_calls t'
  end.

Fixpoint diagnostics (t : list event) : list string :=
  match t with
  | [] => []
  | Diagnostic m :: t' => m :: diagnostics t'
  | _ :: t' => diagnostics t'
  end.

(** The cells a run processes: the index of the flag, or the decoded
    buffers. *)
Definition processed (p : parsed) (r : run) : list H3Index :=
  if indexArg_found p then [index (vars p)]
  else map stringToH3 (reads (trace r)).

(** The coordinate of [h] as displayed: latitude and longitude in degrees. *)
Definition degrees (h : H3Index) : double * double :=
  let g := h3ToGeo h in (radsToDegs (lat g), radsToDegs (lon g)).

(** One displayed point in either output mode. *)
Definition display (isKmlOut : bool) (label : string) (d : double * double)
  : output :=
  if isKmlOut then KmlPlacemark label (snd d) (fst d)
  else Printed (fmt_f 10 (fst d) ++ " " ++ fmt_f 10 (snd d)
                ++ String newline "").

(** What one iteration of the loop over stdin does with the buffer read. *)
Definition iteration (isKmlOut : bool) (buff : string) : list event :=
  Read (Some buff) :: map Out (doCell (stringToH3 buff) isKmlOut).

(** The events that end the loop over stdin. *)
Definition closing (e : loop_end) : list event :=
  match e with
  | Break => [Read None]
  | Exit => Read None :: error "reading H3 index from stdin"
  | Unfinished => []
  end.

(** The name and the description [main] passes to [kmlPtsHeader]. *)
Definition header_name (p : parsed) : string :=
  if kmlNameArg_found p then c_str (userKmlName (vars p)) else "geo from H3".

Definition header_desc (p : parsed) : string :=
  if kmlDescArg_found p then c_str (userKmlDesc (vars p)) else "from h3ToGeo".

(** The events of the header and of the footer of a run. *)
Definition header_events (p : parsed) : list event :=
  if kmlArg_found p
  then map Out (kmlPtsHeader (header_name p) (header_desc p))
  else [].

Definition footer_events (p : parsed) (e : loop_end) : list event :=
  match e with
  | Break => if kmlArg_found p then map Out kmlPtsFooter else []
  | Exit | Unfinished => []
  end.

Definition termination_of (e : loop_end) : termination :=
  match e with
  | Break => EndOfMain
  | Exit => Aborted
  | Unfinished => Running
  end.

(** The line [doCell] prints for [h] in plain-text mode. *)
Definition plain_line (h : H3Index) : string :=
  fmt_f 10 (radsToDegs (lat (h3ToGeo h))) ++ " "
  ++ fmt_f 10 (radsToDegs (lon (h3ToGeo h))) ++ String newline "".

End WithApi.

Definition is_header (o : output) : bool :=
  match o with KmlHeader _ _ => true | _ => false end.


Definition is_footer (o : output) : bool :=
  match o with KmlFooter => true | _ => false end.

(** A displayed point: a placemark or a printed line. *)
Definition is_point (o : output) : bool :=
  match o with
  | KmlPlacemark _ _ _ | Printed _ => true
  | KmlHeader _ _ | KmlFooter => false
  end.

Definition count (f : output -> bool) (l : list output) : nat :=
  List.length (filter f l).

(** The physical lines of an input: each ends with its newline, but
    possibly the last. *)
Fixpoint physical_lines (s : string) : list string :=
  match s with
  | "" => []
  | String c r =>
      if (c =? newline)%char then String c "" :: physical_lines r
      else match physical_lines r with
           | [] => [String c ""]
           | l :: ls => String c l :: ls
           end
  end.

(** A line [fgets] returns whole: it has at most [BUFF_SIZE - 1]
    characters, its newline included. *)
Definition fits_buffer (l : string) : Prop := length l <= BUFF_SIZE - 1.

Definition cat (ls : list string) : string := fold_right append "" ls.

Definition nl : string := String newline "".

(** The parsed state of a successful [parseArgs] with the given flags. *)
Definition parsed_ok (index_found kml name_found desc_found : bool)
  (m : locals) : parsed :=
  mkParsed 0 false index_found kml name_found desc_found m.

(** *** A parser to run the filter on *)

Definition has_name (tok : string) (a : Arg) : bool :=
  existsb (String.eqb tok) (names a).

Definition set_found (a : Arg) : Arg :=
  mkArg (names a) (scanFormat a) (valueName a) (value a) (helpText a) true.

(** Marks the first descriptor one of whose aliases is [tok]. *)
Fixpoint mark (tok : string) (args : list Arg) : option (Arg * list Arg) :=
  match args with
  | [] => None
  | a :: rest =>
      if has_name tok a then Some (a, set_found a :: rest)
      else match mark tok rest with
           | Some (b, rest') => Some (b, a :: rest')
           | None => None
           end
  end.

(** Modelled from the spec: the scan of the argument list by [parseArgs]:
    any alias of a descriptor is recognised, the value of a flag that takes
    one is parsed and stored, the descriptor is marked found; an unknown
    flag, a missing value or a malformed value is a usage error ([false]). *)
Fixpoint parseArgsList (argv : list string) (args : list Arg) (m : locals)
  : bool * list Arg * locals :=
  match argv with
  | [] => (true, args, m)
  | tok :: rest =>
      match mark tok args with
      | None => (false, args, m)
      | Some (a, args') =>
          match scanFormat a with
          | None => parseArgsList rest args' m
          | Some _ =>
              match rest with
              | [] => (false, args, m)
              | text :: rest' =>
                  match scan_value a text m with
                  | Some m' => parseArgsList rest' args' m'
                  | None => (false, args, m)
                  end
              end
          end
      end
  end.

(** Modelled from the spec: a [parseArgs] that keeps the contract of the
    argument-parsing collaborator.  The result is zero on success and nonzero
    both when help was requested and on a usage error; [argv] starts with the
    program name. *)
Definition reference_parseArgs (argv : list string) (args : list Arg)
  (helpArg : nat) (helpText : string) (m : locals) : Z * list Arg * locals :=
  let '(ok, args', m') := parseArgsList (tl argv) args m in
  (if ok && negb (found_at helpArg args') then 0%Z else 1%Z, args', m').

Definition reference_parser : ArgParser :=
  {| parseArgs := reference_parseArgs |}.

(** *** A library to run the filter on

    [radsToDegs] multiplies by 180/pi in binary64; the other functions are
    simple stand-ins used to evaluate runs. *)

Definition M_180_PI : double := S754_finite false 8063664102031864 (-47).

Definition sample_api : H3Api :=
  {| h3ToGeo h :=
       mkGeoCoord (S754_finite (Z.odd h) (Z.to_pos (1 + h mod 1024)) (-10))
                  (S754_finite false (Z.to_pos (1 + (h / 1024) mod 2048)) (-10));
     radsToDegs d := SFmul 53 1024 d M_180_PI;
     h3ToString h sz :=
       take (sz - 1)
         (HexadecimalString.NilZero.string_of_uint (N.to_hex_uint (Z.to_N h)));
     stringToH3 s :=
       match scan_lx s with
       | Some v => v
       | None => 0%Z
       end |}.

(** A library whose coordinates are not numbers: a NaN latitude and an
    infinite longitude for every index. *)
Definition nan_api : H3Api :=
  {| h3ToGeo h := mkGeoCoord S754_nan (S754_infinity true);
     radsToDegs d := SFmul 53 1024 d M_180_PI;
     h3ToString := @h3ToString sample_api;
     stringToH3 := @stringToH3 sample_api |}.

(** Inputs the runs below are evaluated on. *)
Definition sample_line : string := "8928308280fffff" ++ nl.

Definition sample_index : H3Index := 617700169958293503%Z.

Definition sample_stdin : FILE :=
  stream_of (sample_line ++ "8a2a1072b59ffff" ++ nl) EndOfFile.

Definition long_body : string := replicate 300 "f"%char.

Definition long_line : string := long_body ++ nl.

(** Streaming mode, in KML and in plain text, as a successful [parseArgs]
    leaves [main]. *)
Definition kml_stream : parsed :=
  parsed_ok false true false false initial_locals.

Definition plain_stream : parsed :=
  parsed_ok false false false false initial_locals.

(** Plain-text streaming with a name and a description given all the same. *)
Definition plain_stream_named : parsed :=
  parsed_ok false false true true
    (mkLocals 0%Z (overwrite "cells" (replicate BUFF_SIZE NUL))
              (overwrite "of a city" (replicate BUFF_SIZE NUL))).

(** *** Further readings of a run *)

Definition is_printed (o : output) : bool :=
  match o with Printed _ => true | _ => false end.

(** [s] is made of whole lines: it is empty or its last character is a
    newline. *)
Fixpoint ends_line (s : string) : bool :=
  match s with
  | "" => true
  | String c r =>
      match r with
      | "" => (c =? newline)%char
      | String _ _ => ends_line r
      end
  end.

(** A buffer as [fgets] with [BUFF_SIZE] fills it: not empty, at most
    [BUFF_SIZE - 1] characters (the array keeps room for the NUL), and no
    newline but possibly as its last character. *)
Definition well_filled (b : string) : Prop :=
  b <> "" /\ length b <= BUFF_SIZE - 1
  /\ lacks newline (take (length b - 1) b) = true.

Section Buffers.
Context `{api : H3Api}.

(** The buffers the loop of [main] over [stdin] hands to [stringToH3]. *)
Definition buffers (isKmlOut : bool) (stdin : FILE) : list string :=
  reads (fst (fst (read_loop (S (length (pending stdin))) isKmlOut stdin))).

End Buffers.

(** The library [api] with [f] for [h3ToString]. *)
Definition with_h3ToString (api : H3Api) (f : H3Index -> nat -> string)
  : H3Api :=
  {| h3ToGeo := @h3ToGeo api; radsToDegs := @radsToDegs api;
     h3ToString := f; stringToH3 := @stringToH3 api |}.

End Filter.

(** * Properties *)

Import Text Stdio Lib Filter.

(** ** Text *)

Lemma append_nil_r (s : string) : s ++ "" = s.
Proof. induction s as [|c s IH]; simpl; [reflexivity | now rewrite IH]. Qed.

Lemma append_assoc (a b c : string) : (a ++ b) ++ c = a ++ (b ++ c).
Proof. induction a as [|x a IH]; simpl; [reflexivity | now rewrite IH]. Qed.

Lemma length_append (a b : string) : length (a ++ b) = length a + length b.
Proof. induction a as [|x a IH]; simpl; [reflexivity | now rewrite IH]. Qed.

Lemma take_length (n : nat) (s : string) : length (take n s) = Nat.min n (length s).
Proof.
  revert s; induction n as [|n IH]; intros [|c s]; simpl; try reflexivity.
  now rewrite IH.
Qed.

Lemma take_drop (n : nat) (s : string) : take n s ++ drop n s = s.
Proof.
  revert s; induction n as [|n IH]; intros [|c s]; simpl; try reflexivity.
  now rewrite IH.
Qed.

Lemma take_all (n : nat) (s : string) : length s <= n -> take n s = s.
Proof.
  revert s; induction n as [|n IH]; intros [|c s]; simpl; intros H;
    try reflexivity; try lia.
  rewrite IH by lia; reflexivity.
Qed.

Lemma lacks_take (c : ascii) (n : nat) (s : string) :
  lacks c s = true -> lacks c (take n s) = true.
Proof.
  revert s; induction n as [|n IH]; intros [|x s]; simpl; try reflexivity.
  intros H; apply andb_true_iff in H as [H1 H2].
  rewrite H1; simpl; auto.
Qed.

Lemma lacks_drop (c : ascii) (n : nat) (s : string) :
  lacks c s = true -> lacks c (drop n s) = true.
Proof.
  revert s; induction n as [|n IH]; intros [|x s]; simpl; try reflexivity; auto.
  intros H; apply andb_true_iff in H as [H1 H2]; auto.
Qed.

Lemma c_str_lacks (s : string) : lacks NUL s = true -> c_str s = s.
Proof.
  induction s as [|c s IH]; simpl; [reflexivity|].
  intros H; apply andb_true_iff in H as [H1 H2].
  apply negb_true_iff in H1; rewrite H1, IH by assumption; reflexivity.
Qed.

Lemma c_str_lacks_NUL (s : string) : lacks NUL (c_str s) = true.
Proof.
  induction s as [|c s IH]; simpl; [reflexivity|].
  destruct (c =? NUL)%char eqn:E; simpl; [reflexivity|].
  now rewrite E, IH.
Qed.

Lemma c_str_append_NUL (a b : string) :
  lacks NUL a = true -> c_str (a ++ String NUL b) = a.
Proof.
  induction a as [|c a IH]; simpl; [reflexivity|].
  intros H; apply andb_true_iff in H as [H1 H2].
  apply negb_true_iff in H1; rewrite H1, IH by assumption; reflexivity.
Qed.

Lemma split_point_digits (i f : string) :
  all_digits i = true -> split_point (i ++ String "." f) = Some (i, f).
Proof.
  induction i as [|c i IH]; simpl; [reflexivity|].
  intros H; apply andb_true_iff in H as [H1 H2].
  destruct (c =? ".")%char eqn:E.
  - apply Ascii.eqb_eq in E; subst c; discriminate H1.
  - rewrite IH by assumption; reflexivity.
Qed.

(** ** Formatted output *)

Example fmt_f_37_5 :
  fmt_f 10 (S754_finite false 75 (-1)) = "37.5000000000".
Proof. reflexivity. Qed.

Example fmt_f_neg_third :
  fmt_f 10 (S754_finite true 6004799503160661 (-54)) = "-0.3333333333".
Proof. vm_compute. reflexivity. Qed.

Example fmt_f_tie_even :
  fmt_f 0 (S754_finite false 5 (-1)) = "2"
  /\ fmt_f 0 (S754_finite false 7 (-1)) = "4"
  /\ fmt_f 2 (S754_finite false 1 (-3)) = "0.12".
Proof. vm_compute. repeat split. Qed.

Example fmt_f_large :
  fmt_f 3 (S754_finite false 5 10) = "5120.000".
Proof. vm_compute. reflexivity. Qed.

Example printf_two_doubles (a b : double) :
  printf ("%.10lf %.10lf" ++ String newline "") [a; b]
  = fmt_f 10 a ++ " " ++ fmt_f 10 b ++ String newline "".
Proof. reflexivity. Qed.

Lemma all_digits_append (a b : string) :
  all_digits (a ++ b) = all_digits a && all_digits b.
Proof.
  induction a as [|c a IH]; simpl; [reflexivity|].
  now rewrite IH, andb_assoc.
Qed.

Lemma digit_char_is_digit (v : Z) : is_digit (digit_char (v mod 10)) = true.
Proof.
  unfold digit_char.
  assert (H : Z.to_nat (v mod 10) < 10)
    by (pose proof (Z.mod_pos_bound v 10); lia).
  revert H; generalize (Z.to_nat (v mod 10)); intros n H.
  do 10 (destruct n as [|n]; [reflexivity|]); lia.
Qed.

Lemma frac_digits_all_digits (n : nat) (v : Z) :
  all_digits (frac_digits n v) = true.
Proof.
  revert v; induction n as [|n IH]; intros v; cbn [frac_digits]; [reflexivity|].
  rewrite all_digits_append, IH; cbn [all_digits andb].
  now rewrite digit_char_is_digit.
Qed.

Lemma frac_digits_length (n : nat) (v : Z) : length (frac_digits n v) = n.
Proof.
  revert v; induction n as [|n IH]; intros v; cbn [frac_digits]; [reflexivity|].
  rewrite length_append, IH; cbn [length]; lia.
Qed.

Lemma string_of_uint_digits (d : Decimal.uint) :
  all_digits (DecimalString.NilEmpty.string_of_uint d) = true.
Proof. induction d; simpl; auto. Qed.

Lemma int_digits_all_digits (v : Z) : all_digits (int_digits v) = true.
Proof.
  unfold int_digits, DecimalString.NilZero.string_of_uint.
  destruct (N.to_uint (Z.to_N v)) eqn:E; try reflexivity;
    rewrite <- E; apply string_of_uint_digits.
Qed.

Lemma int_digits_nonempty (v : Z) : (int_digits v =? "") = false.
Proof.
  unfold int_digits, DecimalString.NilZero.string_of_uint.
  destruct (N.to_uint (Z.to_N v)); reflexivity.
Qed.

(** A numeral in fixed notation matches [\d+\.\d{prec}]. *)
Lemma fixed_is_fixed_point (prec : nat) (q : Z) (s : bool) :
  0 < prec -> is_fixed_point prec (sign s ++ fixed prec q) = true.
Proof.
  intros Hp; unfold fixed.
  destruct prec as [|p]; [lia|].
  set (i := int_digits _); set (f := frac_digits _ _).
  assert (Hi : all_digits i = true) by apply int_digits_all_digits.
  assert (Hn : (i =? "") = false) by apply int_digits_nonempty.
  assert (Hbody : is_fixed_point (S p) (i ++ String "." f) = true
                  /\ is_fixed_point (S p) (String "-" (i ++ String "." f)) = true).
  { assert (Hsp : split_point (i ++ String "." f) = Some (i, f))
      by (apply split_point_digits; exact Hi).
    assert (Hok : negb (i =? "") && all_digits i && all_digits f
                  && (length f =? S p)%nat = true).
    { rewrite Hn, Hi; unfold f.
      rewrite frac_digits_all_digits, frac_digits_length, Nat.eqb_refl.
      reflexivity. }
    split.
    - unfold is_fixed_point.
      destruct i as [|c i']; [discriminate Hn|].
      simpl in Hi; apply andb_true_iff in Hi as [Hc _].
      change ((String c i') ++ String "." f) with (String c (i' ++ String "." f)).
      cbv beta iota.
      destruct (c =? "-")%char eqn:E.
      + apply Ascii.eqb_eq in E; subst c; discriminate Hc.
      + change (String c (i' ++ String "." f)) with ((String c i') ++ String "." f).
        rewrite Hsp; exact Hok.
    - unfold is_fixed_point; cbv beta iota.
      rewrite Ascii.eqb_refl, Hsp; exact Hok. }
  destruct s; simpl; apply Hbody.
Qed.

(** Every finite [double] is written by [%.<prec>f], [prec > 0], as an
    optional sign, an integer part, a point and exactly [prec] digits. *)
Lemma fmt_f_finite (prec : nat) (d : double) :
  0 < prec -> is_finite d = true -> is_fixed_point prec (fmt_f prec d) = true.
Proof.
  intros Hp Hd; destruct d; try discriminate Hd; simpl;
    apply fixed_is_fixed_point; exact Hp.
Qed.

(** Infinities and NaNs are not written in fixed-point notation. *)
Lemma fmt_f_not_finite (prec : nat) (d : double) :
  is_finite d = false -> is_fixed_point prec (fmt_f prec d) = false.
Proof. destruct d as [s|[]| |s m e]; try discriminate; reflexivity. Qed.

(** [%.<prec>f], [prec > 0], writes fixed-point notation exactly for the
    finite values. *)
Lemma fmt_f_fixed_iff_finite (prec : nat) (d : double) :
  0 < prec -> is_fixed_point prec (fmt_f prec d) = is_finite d.
Proof.
  intros Hp; destruct (is_finite d) eqn:E.
  - now apply fmt_f_finite.
  - now apply fmt_f_not_finite.
Qed.

Lemma lacks_append (c : ascii) (a b : string) :
  lacks c (a ++ b) = lacks c a && lacks c b.
Proof.
  induction a as [|x a IH]; cbn [append lacks]; [reflexivity|].
  rewrite IH; now rewrite andb_assoc.
Qed.

Lemma digits_lack_newline (s : string) :
  all_digits s = true -> lacks newline s = true.
Proof.
  induction s as [|c s IH]; [reflexivity|]; cbn [all_digits lacks].
  intros H; apply andb_true_iff in H as [Hc Hs].
  rewrite (IH Hs), andb_true_r.
  destruct (c =? newline)%char eqn:E; [|reflexivity].
  apply Ascii.eqb_eq in E; subst c; discriminate Hc.
Qed.

(** No conversion of a [double] writes a newline. *)
Lemma fmt_f_lacks_newline (prec : nat) (d : double) :
  lacks newline (fmt_f prec d) = true.
Proof.
  assert (Hfix : forall q s, lacks newline (sign s ++ fixed prec q) = true).
  { intros q s; rewrite lacks_append; unfold fixed; rewrite lacks_append.
    rewrite (digits_lack_newline _ (int_digits_all_digits _)).
    destruct prec as [|p]; [destruct s; reflexivity|].
    cbn [lacks]; rewrite (digits_lack_newline _ (frac_digits_all_digits _ _)).
    destruct s; reflexivity. }
  destruct d as [s|s| |s m e]; cbn [fmt_f]; try apply Hfix;
    try destruct s; reflexivity.
Qed.

(** ** Reading lines *)

Lemma read_line_split (n : nat) (s l r : string) (x : bool) :
  read_line n s = (l, r, x) -> s = l ++ r /\ (x = true -> r = "").
Proof.
  revert s l r x; induction n as [|n IH]; intros s l r x; cbn [read_line].
  - intros E; inversion E; subst; split; [reflexivity | discriminate].
  - destruct s as [|c s].
    + intros E; inversion E; subst; split; reflexivity.
    + destruct (c =? newline)%char.
      * intros E; inversion E; subst; split; [reflexivity | discriminate].
      * destruct (read_line n s) as [[l' r'] x'] eqn:E'.
        intros E; inversion E; subst.
        destruct (IH _ _ _ _ E') as [-> Hx]; split; [reflexivity | exact Hx].
Qed.

Lemma read_line_progress (n : nat) (c : ascii) (s l r : string) (x : bool) :
  read_line (S n) (String c s) = (l, r, x) -> l <> "".
Proof.
  cbn [read_line]; destruct (c =? newline)%char.
  - intros E; inversion E; discriminate.
  - destruct (read_line n s) as [[l' r'] x']; intros E; inversion E; discriminate.
Qed.

(** Reading from a physical line [d ++ nl]: the whole line when it fits,
    else its first [n] characters. *)
Lemma read_line_line (n : nat) (d rest : string) :
  lacks newline d = true ->
  read_line n (d ++ nl ++ rest)
  = if (length d <? n)%nat then (d ++ nl, rest, false)
    else (take n d, drop n d ++ nl ++ rest, false).
Proof.
  revert d; induction n as [|n IH]; intros d Hd; [reflexivity|].
  destruct d as [|c d].
  - reflexivity.
  - cbn [lacks] in Hd; apply andb_true_iff in Hd as [Hc Hd].
    apply negb_true_iff in Hc.
    cbn [append read_line length take drop]; rewrite Hc, (IH d Hd).
    change (S (length d) <? S n)%nat with (length d <? n)%nat.
    destruct (length d <? n)%nat; reflexivity.
Qed.

(** *** Physical lines *)

Example physical_lines_two :
  physical_lines ("ab" ++ nl ++ "cd") = [("ab" ++ nl)%string; "cd"%string]
  /\ physical_lines (nl ++ nl) = [nl; nl]
  /\ physical_lines "" = [].
Proof. repeat split. Qed.

Lemma physical_lines_nil (s : string) : physical_lines s = [] -> s = "".
Proof.
  destruct s as [|c r]; [reflexivity|]; cbn [physical_lines].
  destruct (c =? newline)%char; [discriminate|].
  destruct (physical_lines r); discriminate.
Qed.

Lemma physical_lines_nonempty (s : string) :
  Forall (fun l => l <> "") (physical_lines s).
Proof.
  induction s as [|c r IH]; cbn [physical_lines]; [constructor|].
  destruct (c =? newline)%char.
  - constructor; [discriminate | exact IH].
  - destruct (physical_lines r) as [|l ls].
    + constructor; [discriminate | constructor].
    + inversion IH; subst; constructor; [discriminate | assumption].
Qed.

(** A physical line that fits in [n] characters is what [read_line] reads,
    and the lines after it are those of what is left. *)
Lemma read_line_physical (n : nat) (s l : string) (ls : list string) :
  physical_lines s = l :: ls -> length l <= n ->
  exists s' x,
    read_line n s = (l, s', x) /\ physical_lines s' = ls.
Proof.
  revert n l ls; induction s as [|c r IH]; intros n l ls; cbn [physical_lines];
    [discriminate|].
  destruct (c =? newline)%char eqn:Ec.
  - intros E Hn; injection E as <- <-.
    destruct n as [|n]; [simpl in Hn; lia|].
    exists r, false; cbn [read_line]; rewrite Ec; split; reflexivity.
  - destruct (physical_lines r) as [|l' ls'] eqn:Er.
    + intros E Hn; injection E as <- <-.
      destruct n as [|n]; [simpl in Hn; lia|].
      apply physical_lines_nil in Er; subst r.
      cbn [read_line]; rewrite Ec.
      destruct n as [|n]; cbn [read_line]; eexists _, _; split; reflexivity.
    + intros E Hn; injection E as <- <-.
      destruct n as [|n]; [simpl in Hn; lia|].
      destruct (IH n l' ls' eq_refl ltac:(simpl in Hn; lia))
        as (s' & x & Hr & Hp).
      exists s', x; cbn [read_line]; rewrite Ec, Hr; split; [reflexivity|].
      exact Hp.
Qed.

(** *** [fgets] *)

Section Fgets.
Variables (n : nat) (stream stream' : FILE).
Hypothesis room : 1 < n.

Lemma fgets_some (b : string) :
  fgets n stream = (Some b, stream') ->
  pending stream = b ++ pending stream'
  /\ b <> ""
  /\ at_end stream' = at_end stream
  /\ (at_end stream = ReadError -> eof_indicator stream' = eof_indicator stream).
Proof.
  unfold fgets.
  destruct (read_line (n - 1) (pending stream)) as [[l r] x] eqn:E.
  destruct (read_line_split _ _ _ _ _ E) as [Hs Hx].
  destruct x.
  - rewrite (Hx eq_refl) in Hs.
    destruct (at_end stream) eqn:Ea; [|discriminate].
    destruct l as [|c l]; [discriminate|].
    intros H; inversion H; subst; cbn [pending at_end eof_indicator].
    repeat split; try assumption; try discriminate.
  - intros H; inversion H; subst; cbn [pending at_end eof_indicator].
    repeat split; try assumption.
    destruct (pending stream) as [|c s] eqn:Ep.
    + destruct (n - 1) eqn:En; [lia|]; discriminate E.
    + destruct (n - 1) eqn:En; [lia|].
      eapply read_line_progress; exact E.
Qed.

Lemma fgets_none :
  fgets n stream = (None, stream') ->
  (at_end stream = EndOfFile /\ pending stream = "" /\ feof stream' = true)
  \/ (at_end stream = ReadError /\ feof stream' = eof_indicator stream).
Proof.
  unfold fgets.
  destruct (read_line (n - 1) (pending stream)) as [[l r] x] eqn:E.
  destruct (read_line_split _ _ _ _ _ E) as [Hs Hx].
  destruct x; [|discriminate].
  rewrite (Hx eq_refl) in Hs.
  destruct (at_end stream) eqn:Ea.
  - destruct l; [|discriminate].
    intros H; inversion H; subst; left; repeat split; assumption.
  - intros H; inversion H; subst; right; split; reflexivity.
Qed.

End Fgets.

Lemma fgets_line (d rest : string) (e : stream_end) (fe fr : bool) :
  lacks newline d = true ->
  fgets BUFF_SIZE (mkFILE (d ++ nl ++ rest) e fe fr)
  = if (length d <? BUFF_SIZE - 1)%nat
    then (Some (d ++ nl), mkFILE rest e fe fr)
    else (Some (take (BUFF_SIZE - 1) d),
          mkFILE (drop (BUFF_SIZE - 1) d ++ nl ++ rest) e fe fr).
Proof.
  intros H; unfold fgets; cbn [pending at_end eof_indicator error_indicator].
  rewrite (read_line_line _ _ _ H).
  destruct (length d <? BUFF_SIZE - 1)%nat; reflexivity.
Qed.

(** Up to end-of-file, [fgets] returns the next physical line when it
    fits the buffer. *)
Lemma fgets_physical (n : nat) (stream : FILE) (l : string)
  (ls : list string) :
  physical_lines (pending stream) = l :: ls -> length l <= n - 1 ->
  at_end stream = EndOfFile ->
  exists stream',
    fgets n stream = (Some l, stream')
    /\ physical_lines (pending stream') = ls
    /\ at_end stream' = EndOfFile.
Proof.
  intros Hp Hl Ha.
  destruct (read_line_physical _ _ _ _ Hp Hl) as (s' & x & Hr & Hs).
  pose proof (physical_lines_nonempty (pending stream)) as Hne.
  rewrite Hp in Hne; apply Forall_inv in Hne.
  unfold fgets; rewrite Hr, Ha.
  destruct x.
  - destruct (read_line_split _ _ _ _ _ Hr) as [_ Hx].
    rewrite (Hx eq_refl) in Hs; cbn [physical_lines] in Hs; subst ls.
    destruct l as [|c l]; [contradiction|].
    eexists; repeat split.
  - eexists; repeat split; exact Hs.
Qed.

Lemma fgets_empty (e : stream_end) (fe fr : bool) :
  fst (fgets BUFF_SIZE (mkFILE "" e fe fr)) = None.
Proof. destruct e; reflexivity. Qed.

Lemma BUFF_SIZE_room : 1 < BUFF_SIZE.
Proof. unfold BUFF_SIZE; lia. Qed.

(** ** Traces *)

Open Scope list_scope.

Lemma stdout_app (a b : list event) : stdout (a ++ b) = stdout a ++ stdout b.
Proof.
  induction a as [|[r|o|m] a IH]; cbn [app stdout]; try assumption;
    [reflexivity | now rewrite IH].
Qed.

Lemma reads_app (a b : list event) : reads (a ++ b) = reads a ++ reads b.
Proof.
  induction a as [|[[s|]|o|m] a IH]; cbn [app reads]; try assumption;
    [reflexivity | now rewrite IH].
Qed.

Lemma read_calls_app (a b : list event) :
  read_calls (a ++ b) = read_calls a + read_calls b.
Proof.
  induction a as [|[r|o|m] a IH]; cbn [app read_calls]; try assumption;
    [reflexivity | now rewrite IH].
Qed.

Lemma diagnostics_app (a b : list event) :
  diagnostics (a ++ b) = diagnostics a ++ diagnostics b.
Proof.
  induction a as [|[r|o|m] a IH]; cbn [app diagnostics]; try assumption;
    [reflexivity | now rewrite IH].
Qed.

Lemma stdout_Out (l : list output) : stdout (map Out l) = l.
Proof. induction l as [|o l IH]; cbn [map stdout]; [reflexivity | now rewrite IH]. Qed.

Lemma reads_Out (l : list output) : reads (map Out l) = [].
Proof. induction l as [|o l IH]; [reflexivity | exact IH]. Qed.

Lemma read_calls_Out (l : list output) : read_calls (map Out l) = 0.
Proof. induction l as [|o l IH]; [reflexivity | exact IH]. Qed.

Lemma diagnostics_Out (l : list output) : diagnostics (map Out l) = [].
Proof. induction l as [|o l IH]; [reflexivity | exact IH]. Qed.

Lemma count_app (f : output -> bool) (a b : list output) :
  count f (a ++ b) = count f a + count f b.
Proof. unfold count; now rewrite filter_app, length_app. Qed.

Lemma count_none (f g : output -> bool) (l : list output) :
  (forall o, g o = true -> f o = false) -> forallb g l = true -> count f l = 0.
Proof.
  intros Hfg; unfold count; induction l as [|o l IH]; [reflexivity|].
  cbn [forallb filter]; intros H; apply andb_true_iff in H as [Ho Hl].
  rewrite (Hfg _ Ho); auto.
Qed.

Create Rewrite HintDb trace.
#[local] Hint Rewrite stdout_app reads_app read_calls_app diagnostics_app
  stdout_Out reads_Out read_calls_Out diagnostics_Out app_nil_r : trace.

Lemma closing_stdout (e : loop_end) : stdout (closing e) = [].
Proof. destruct e; reflexivity. Qed.

Lemma closing_reads (e : loop_end) : reads (closing e) = [].
Proof. destruct e; reflexivity. Qed.

(** Splits an equation between triples without reducing its sides. *)
Ltac triple E :=
  let E1 := fresh in let E2 := fresh in let E3 := fresh in
  apply pair_equal_spec in E as [E1 E3];
  apply pair_equal_spec in E1 as [E1 E2];
  match type of E1 with _ = ?v => subst v end;
  match type of E2 with _ = ?v => subst v end;
  match type of E3 with _ = ?v => subst v end.

(** ** One cell *)

Section Cells.
Context `{api : H3Api}.

(** [doCell] displays one point: the degrees of the coordinate of [h]. *)
Lemma doCell_display (h : H3Index) (isKmlOut : bool) :
  doCell h isKmlOut = [display isKmlOut (h3ToString h BUFF_SIZE) (degrees h)].
Proof. destruct isKmlOut; reflexivity. Qed.

Lemma iteration_stdout (k : bool) (b : string) :
  stdout (iteration k b) = doCell (stringToH3 b) k.
Proof. unfold iteration; cbn [stdout]; apply stdout_Out. Qed.

Lemma iteration_reads (k : bool) (b : string) : reads (iteration k b) = [b].
Proof. unfold iteration; cbn [reads]; now rewrite reads_Out. Qed.

Lemma flat_iteration_stdout (k : bool) (bs : list string) :
  stdout (flat_map (iteration k) bs)
  = map (fun b => display k (h3ToString (stringToH3 b) BUFF_SIZE)
                          (degrees (stringToH3 b))) bs.
Proof.
  induction bs as [|b bs IH]; [reflexivity|].
  cbn [flat_map map].
  now rewrite stdout_app, iteration_stdout, IH, doCell_display.
Qed.

Lemma flat_iteration_diagnostics (k : bool) (bs : list string) :
  diagnostics (flat_map (iteration k) bs) = [].
Proof.
  induction bs as [|b bs IH]; [reflexivity|].
  cbn [flat_map]; rewrite diagnostics_app, IH; unfold iteration.
  cbn [diagnostics]; now rewrite diagnostics_Out.
Qed.

(** ** The loop over stdin *)

Lemma read_loop_unfold (fuel : nat) (k : bool) (stdin : FILE) :
  read_loop (S fuel) k stdin
  = match fgets BUFF_SIZE stdin with
    | (None, stdin') =>
        if feof stdin' then ([Read None], stdin', Break)
        else (Read None :: error "reading H3 index from stdin", stdin', Exit)
    | (Some buff, stdin') =>
        let '(t, stdin'', e) := read_loop fuel k stdin' in
        (iteration k buff ++ t, stdin'', e)
    end.
Proof. reflexivity. Qed.

(** The trace of the loop: one iteration per buffer read, in order, each
    buffer followed at once by its output, then the failed read that ends
    the loop. *)
Lemma read_loop_shape (fuel : nat) (k : bool) (stdin s : FILE)
  (t : list event) (e : loop_end) :
  read_loop fuel k stdin = (t, s, e) ->
  t = flat_map (iteration k) (reads t) ++ closing e.
Proof.
  revert stdin s t e; induction fuel as [|fuel IH]; intros stdin s t e.
  - intros E; triple E; reflexivity.
  - rewrite read_loop_unfold.
    destruct (fgets BUFF_SIZE stdin) as [[b|] s1].
    + destruct (read_loop fuel k s1) as [[t1 s2] e1] eqn:E1.
      intros E; triple E.
      rewrite reads_app, iteration_reads; cbn [app flat_map].
      rewrite <- app_assoc, <- (IH _ _ _ _ E1); reflexivity.
    + destruct (feof s1); intros E; triple E; reflexivity.
Qed.

(** The loop writes one displayed point per buffer read, in the order of the
    reads. *)
Lemma read_loop_stdout (fuel : nat) (k : bool) (stdin s : FILE)
  (t : list event) (e : loop_end) :
  read_loop fuel k stdin = (t, s, e) ->
  stdout t
  = map (fun b => display k (h3ToString (stringToH3 b) BUFF_SIZE)
                          (degrees (stringToH3 b))) (reads t).
Proof.
  intros E; pose proof (read_loop_shape _ _ _ _ _ _ E) as Ht.
  transitivity (stdout (flat_map (iteration k) (reads t) ++ closing e));
    [f_equal; exact Ht|].
  now rewrite stdout_app, flat_iteration_stdout, closing_stdout, app_nil_r.
Qed.

Lemma read_loop_diagnostics (fuel : nat) (k : bool) (stdin s : FILE)
  (t : list event) (e : loop_end) :
  read_loop fuel k stdin = (t, s, e) ->
  diagnostics t = diagnostics (closing e).
Proof.
  intros E; pose proof (read_loop_shape _ _ _ _ _ _ E) as Ht.
  transitivity (diagnostics (flat_map (iteration k) (reads t) ++ closing e));
    [f_equal; exact Ht|].
  now rewrite diagnostics_app, flat_iteration_diagnostics.
Qed.

(** The buffers read are consecutive pieces of the input, from its start. *)
Lemma read_loop_consumes (fuel : nat) (k : bool) (stdin s : FILE)
  (t : list event) (e : loop_end) :
  read_loop fuel k stdin = (t, s, e) ->
  exists rest, pending stdin = (cat (reads t) ++ rest)%string.
Proof.
  revert stdin s t e; induction fuel as [|fuel IH]; intros stdin s t e.
  - intros E; triple E; exists (pending stdin); reflexivity.
  - rewrite read_loop_unfold.
    destruct (fgets BUFF_SIZE stdin) as [[b|] s1] eqn:Eg.
    + destruct (read_loop fuel k s1) as [[t1 s2] e1] eqn:E1.
      intros E; triple E.
      destruct (fgets_some _ _ _ BUFF_SIZE_room _ Eg) as (Hp & _).
      destruct (IH _ _ _ _ E1) as [rest Hr].
      exists rest; rewrite reads_app, iteration_reads; cbn [app cat fold_right].
      fold (cat (reads t1)).
      rewrite append_assoc, <- Hr; exact Hp.
    + destruct (feof s1); intros E; triple E; exists (pending stdin);
        reflexivity.
Qed.

(** The loop ends within [length (pending stdin) + 1] iterations. *)
Lemma read_loop_finishes (fuel : nat) (k : bool) (stdin : FILE) :
  length (pending stdin) < fuel -> snd (read_loop fuel k stdin) <> Unfinished.
Proof.
  revert stdin; induction fuel as [|fuel IH]; intros stdin Hf; [lia|].
  rewrite read_loop_unfold.
  destruct (fgets BUFF_SIZE stdin) as [[b|] s1] eqn:Eg.
  - destruct (fgets_some _ _ _ BUFF_SIZE_room _ Eg) as (Hp & Hb & _).
    assert (Hlt : length (pending s1) < fuel).
    { rewrite Hp, length_append in Hf.
      destruct b; [contradiction|]; simpl in Hf; lia. }
    specialize (IH s1 Hlt).
    destruct (read_loop fuel k s1) as [[t1 s2] e1]; exact IH.
  - destruct (feof s1); discriminate.
Qed.

(** More iterations than that change nothing. *)
Lemma read_loop_fuel (f1 f2 : nat) (k : bool) (stdin : FILE) :
  length (pending stdin) < f1 -> length (pending stdin) < f2 ->
  read_loop f1 k stdin = read_loop f2 k stdin.
Proof.
  revert f2 stdin; induction f1 as [|f1 IH]; intros f2 stdin H1 H2; [lia|].
  destruct f2 as [|f2]; [lia|].
  rewrite !read_loop_unfold.
  destruct (fgets BUFF_SIZE stdin) as [[b|] s1] eqn:Eg; [|reflexivity].
  destruct (fgets_some _ _ _ BUFF_SIZE_room _ Eg) as (Hp & Hb & _).
  rewrite Hp, length_append in H1, H2.
  destruct b; [contradiction|]; simpl in H1, H2.
  rewrite (IH f2 s1) by lia; reflexivity.
Qed.

(** On a stream that ends with end-of-file the loop is left by [break],
    with all the input read. *)
Lemma read_loop_eof (fuel : nat) (k : bool) (stdin : FILE) :
  length (pending stdin) < fuel -> at_end stdin = EndOfFile ->
  forall t s e, read_loop fuel k stdin = (t, s, e) ->
  e = Break /\ feof s = true /\ cat (reads t) = pending stdin.
Proof.
  revert stdin; induction fuel as [|fuel IH]; intros stdin Hf Ha t s e; [lia|].
  rewrite read_loop_unfold.
  destruct (fgets BUFF_SIZE stdin) as [[b|] s1] eqn:Eg.
  - destruct (fgets_some _ _ _ BUFF_SIZE_room _ Eg) as (Hp & Hb & Ha1 & _).
    assert (Hlt : length (pending s1) < fuel).
    { rewrite Hp, length_append in Hf.
      destruct b; [contradiction|]; simpl in Hf; lia. }
    destruct (read_loop fuel k s1) as [[t1 s2] e1] eqn:E1.
    intros E; triple E.
    destruct (IH s1 Hlt (eq_trans Ha1 Ha) _ _ _ E1) as (He & Hfe & Hc).
    repeat split; try assumption.
    rewrite reads_app, iteration_reads; cbn [app cat fold_right].
    fold (cat (reads t1)); rewrite Hc, Hp; reflexivity.
  - destruct (fgets_none _ _ _ Eg) as [(_ & Hp & Hfe)|(Hx & _)];
      [|congruence].
    rewrite Hfe; intros E; triple E.
    repeat split; [assumption | rewrite Hp; reflexivity].
Qed.

(** On a stream that ends with a read error the loop is left by [error]. *)
Lemma read_loop_error (fuel : nat) (k : bool) (stdin : FILE) :
  length (pending stdin) < fuel -> at_end stdin = ReadError ->
  eof_indicator stdin = false ->
  forall t s e, read_loop fuel k stdin = (t, s, e) ->
  e = Exit /\ feof s = false.
Proof.
  revert stdin; induction fuel as [|fuel IH]; intros stdin Hf Ha He t s e; [lia|].
  rewrite read_loop_unfold.
  destruct (fgets BUFF_SIZE stdin) as [[b|] s1] eqn:Eg.
  - destruct (fgets_some _ _ _ BUFF_SIZE_room _ Eg) as (Hp & Hb & Ha1 & He1).
    assert (Hlt : length (pending s1) < fuel).
    { rewrite Hp, length_append in Hf.
      destruct b; [contradiction|]; simpl in Hf; lia. }
    destruct (read_loop fuel k s1) as [[t1 s2] e1] eqn:E1.
    intros E; triple E.
    apply (IH s1 Hlt (eq_trans Ha1 Ha) (eq_trans (He1 Ha) He) _ _ _ E1).
  - destruct (fgets_none _ _ _ Eg) as [(Hx & _)|(_ & Hfe)]; [congruence|].
    rewrite Hfe, He; intros E; triple E; split; [reflexivity|].
    now rewrite Hfe.
Qed.

Lemma display_is_point (k : bool) (label : string) (d : double * double) :
  is_point (display k label d) = true.
Proof. destruct k; reflexivity. Qed.

Lemma displays_are_points (k : bool) (f : string -> string)
  (g : string -> double * double) (bs : list string) :
  forallb is_point (map (fun b => display k (f b) (g b)) bs) = true.
Proof.
  induction bs as [|b bs IH]; [reflexivity|].
  cbn [map forallb]; now rewrite display_is_point, IH.
Qed.

(** Up to end-of-file, physical lines that fit the buffer are read one by
    one: the buffers read are the lines. *)
Lemma read_loop_physical (fuel : nat) (k : bool) (stdin : FILE) :
  length (pending stdin) < fuel -> at_end stdin = EndOfFile ->
  Forall fits_buffer (physical_lines (pending stdin)) ->
  reads (fst (fst (read_loop fuel k stdin))) = physical_lines (pending stdin).
Proof.
  revert stdin; induction fuel as [|fuel IH]; intros stdin Hf Ha Hfit; [lia|].
  rewrite read_loop_unfold.
  destruct (physical_lines (pending stdin)) as [|l ls] eqn:Hp.
  - apply physical_lines_nil in Hp.
    destruct stdin as [data en fe fr]; cbn [pending] in Hp; subst data.
    pose proof (fgets_empty en fe fr) as Hg.
    destruct (fgets BUFF_SIZE (mkFILE "" en fe fr)) as [[b|] s1];
      [discriminate Hg|].
    destruct (feof s1); reflexivity.
  - pose proof (Forall_inv Hfit) as Hl.
    pose proof (Forall_inv_tail Hfit) as Hls.
    destruct (fgets_physical BUFF_SIZE stdin l ls Hp Hl Ha)
      as (s1 & Hg & Hp1 & Ha1).
    rewrite Hg.
    destruct (fgets_some _ _ _ BUFF_SIZE_room _ Hg) as (Hpe & Hb & _).
    assert (Hlt : length (pending s1) < fuel).
    { rewrite Hpe, length_append in Hf.
      destruct l; [contradiction|]; simpl in Hf; lia. }
    rewrite <- Hp1 in Hls.
    specialize (IH s1 Hlt Ha1 Hls).
    destruct (read_loop fuel k s1) as [[t1 s2] e1].
    cbn [fst] in *; rewrite reads_app, iteration_reads, IH, Hp1; reflexivity.
Qed.

(** ** [main] *)

Lemma main_from_failed (p : parsed) (stdin : FILE) :
  rc p <> 0%Z ->
  main_from p stdin
  = mkRun [] stdin (Return (if helpArg_found p then 0%Z else 1%Z)).
Proof.
  intros H; unfold main_from.
  apply Z.eqb_neq in H; rewrite H; reflexivity.
Qed.

Lemma main_from_single (p : parsed) (stdin : FILE) :
  rc p = 0%Z -> indexArg_found p = true ->
  main_from p stdin
  = mkRun (header_events p
           ++ map Out (doCell (index (vars p)) (kmlArg_found p))
           ++ footer_events p Break)
          stdin EndOfMain.
Proof. intros H1 H2; unfold main_from; rewrite H1, H2; reflexivity. Qed.

Lemma main_from_stream (p : parsed) (stdin s : FILE) (t : list event)
  (e : loop_end) :
  rc p = 0%Z -> indexArg_found p = false ->
  read_loop (S (length (pending stdin))) (kmlArg_found p) stdin = (t, s, e) ->
  main_from p stdin
  = mkRun (header_events p ++ t ++ footer_events p e) s (termination_of e).
Proof.
  intros H1 H2 H3; unfold main_from; rewrite H1, H2, H3.
  destruct e; cbn [negb Z.eqb footer_events termination_of];
    rewrite ?app_nil_r; reflexivity.
Qed.

Lemma header_events_stdout (p : parsed) :
  stdout (header_events p)
  = if kmlArg_found p then [KmlHeader (header_name p) (header_desc p)] else [].
Proof. unfold header_events; destruct (kmlArg_found p); reflexivity. Qed.

Lemma footer_events_stdout (p : parsed) (e : loop_end) :
  stdout (footer_events p e)
  = match e with
    | Break => if kmlArg_found p then [KmlFooter] else []
    | _ => []
    end.
Proof. destruct e; cbn; destruct (kmlArg_found p); reflexivity. Qed.

Lemma header_events_reads (p : parsed) : reads (header_events p) = [].
Proof. unfold header_events; destruct (kmlArg_found p); reflexivity. Qed.

Lemma footer_events_reads (p : parsed) (e : loop_end) :
  reads (footer_events p e) = [].
Proof. destruct e; cbn; destruct (kmlArg_found p); reflexivity. Qed.

Lemma header_events_diagnostics (p : parsed) :
  diagnostics (header_events p) = [].
Proof. unfold header_events; destruct (kmlArg_found p); reflexivity. Qed.

Lemma footer_events_diagnostics (p : parsed) (e : loop_end) :
  diagnostics (footer_events p e) = [].
Proof. destruct e; cbn; destruct (kmlArg_found p); reflexivity. Qed.

End Cells.

#[local] Hint Rewrite @header_events_reads @footer_events_reads
  @header_events_diagnostics @footer_events_diagnostics : trace.

(** ** The claims *)

Section Claims.
Context `{api : H3Api}.

(** C1: single-value mode (the index given by the flag) writes the same
    output as streaming mode reading that index as the sole input line, and
    in single-value mode stdin is never read. *)
Theorem single_value_same_as_stream
  (h : H3Index) (line : string) (kml name_found desc_found : bool)
  (m : locals) (stdin : FILE) :
  physical_lines line = [line] -> fits_buffer line ->
  stringToH3 line = h ->
  let single :=
    main_from (parsed_ok true kml name_found desc_found
                 (mkLocals h (userKmlName m) (userKmlDesc m))) stdin in
  let stream :=
    main_from (parsed_ok false kml name_found desc_found m)
              (stream_of line EndOfFile) in
  stdout (trace single) = stdout (trace stream)
  /\ ending single = ending stream
  /\ read_calls (trace single) = 0
  /\ stdin_after single = stdin.
Proof.
  intros Hl Hfit Hh single stream; subst single stream.
  rewrite (main_from_single _ stdin) by reflexivity.
  set (q := parsed_ok false kml name_found desc_found m).
  destruct (read_loop (S (length (pending (stream_of line EndOfFile))))
              (kmlArg_found q) (stream_of line EndOfFile))
    as [[t s] e] eqn:El.
  rewrite (main_from_stream q _ _ _ _ eq_refl eq_refl El).
  destruct (read_loop_eof _ _ (stream_of line EndOfFile)
              (Nat.lt_succ_diag_r _) eq_refl _ _ _ El) as (-> & _ & _).
  assert (Hr : reads t = [line]).
  { pose proof (read_loop_physical (S (length (pending (stream_of line EndOfFile))))
                  (kmlArg_found q) (stream_of line EndOfFile)
                  (Nat.lt_succ_diag_r _) eq_refl) as H.
    rewrite El in H; cbn [fst stream_of pending] in H.
    rewrite Hl in H; apply H; constructor; [exact Hfit | constructor]. }
  cbn [trace ending stdin_after termination_of].
  autorewrite with trace.
  rewrite (read_loop_stdout _ _ _ _ _ _ El), Hr; cbn [map].
  rewrite Hh, doCell_display.
  repeat split.
  unfold header_events, footer_events, parsed_ok, q; cbn [kmlArg_found].
  destruct kml; autorewrite with trace; reflexivity.
Qed.


(** C3, as amended: in plain-text mode every processed item gives exactly
    one line, the latitude then the longitude, in degrees, each written by
    [%.10lf]: in fixed-point notation with exactly 10 digits after the point
    when the value is finite, and not so ([inf], [nan]) when it is not. *)
Theorem plain_text_one_line_per_item (p : parsed) (stdin : FILE) :
  rc p = 0%Z -> kmlArg_found p = false ->
  let r := main_from p stdin in
  stdout (trace r) = map (fun h => Printed (plain_line h)) (processed p r)
  /\ forall h,
       let lat_deg := radsToDegs (lat (h3ToGeo h)) in
       let lon_deg := radsToDegs (lon (h3ToGeo h)) in
       plain_line h
       = (fmt_f 10 lat_deg ++ " " ++ fmt_f 10 lon_deg ++ nl)%string
       /\ lacks newline (fmt_f 10 lat_deg ++ " " ++ fmt_f 10 lon_deg) = true
       /\ is_fixed_point 10 (fmt_f 10 lat_deg) = is_finite lat_deg
       /\ is_fixed_point 10 (fmt_f 10 lon_deg) = is_finite lon_deg.
Proof.
  intros Hrc Hk r; split.
  - subst r; unfold processed.
    destruct (indexArg_found p) eqn:Hi.
    + rewrite (main_from_single _ stdin Hrc Hi); cbn [trace].
      autorewrite with trace.
      rewrite header_events_stdout, footer_events_stdout, Hk.
      reflexivity.
    + destruct (read_loop (S (length (pending stdin))) (kmlArg_found p) stdin)
        as [[t s] e] eqn:El.
      rewrite (main_from_stream _ _ _ _ _ Hrc Hi El); cbn [trace].
      autorewrite with trace.
      rewrite header_events_stdout, footer_events_stdout, Hk.
      rewrite (read_loop_stdout _ _ _ _ _ _ El), Hk, map_map.
      destruct e; rewrite app_nil_r; reflexivity.
  - intros h lat_deg lon_deg.
    split; [reflexivity|].
    split.
    + rewrite !lacks_append, !fmt_f_lacks_newline; reflexivity.
    + split; apply fmt_f_fixed_iff_finite; lia.
Qed.

(** C4: in streaming mode the loop ends normally exactly when end-of-file
    is reached; a read failure that is not end-of-file aborts the process
    with a diagnostic, and then no KML footer is written, also when the KML
    header was. *)
Theorem stream_loop_exits (p : parsed) (data : string) (e : stream_end) :
  rc p = 0%Z -> indexArg_found p = false ->
  let r := main_from p (stream_of data e) in
  (ending r = EndOfMain <-> e = EndOfFile)
  /\ (e = EndOfFile ->
      diagnostics (trace r) = [] /\ feof (stdin_after r) = true)
  /\ (e = ReadError ->
      ending r = Aborted
      /\ feof (stdin_after r) = false
      /\ diagnostics (trace r) = ["reading H3 index from stdin"]
      /\ (exists t, trace r = t ++ [Diagnostic "reading H3 index from stdin"])
      /\ count is_footer (stdout (trace r)) = 0
      /\ (kmlArg_found p = true -> count is_header (stdout (trace r)) = 1)).
Proof.
  intros Hrc Hi r; subst r.
  destruct (read_loop (S (length (pending (stream_of data e))))
              (kmlArg_found p) (stream_of data e)) as [[t s] le] eqn:El.
  rewrite (main_from_stream _ _ _ _ _ Hrc Hi El).
  cbn [ending trace stdin_after].
  pose proof (read_loop_diagnostics _ _ _ _ _ _ El) as Hd.
  destruct e.
  - destruct (read_loop_eof _ _ (stream_of data EndOfFile)
                (Nat.lt_succ_diag_r _) eq_refl _ _ _ El) as (-> & Hfe & _).
    split; [split; reflexivity|].
    split; [|discriminate].
    intros _; split; [|exact Hfe].
    autorewrite with trace; rewrite Hd; reflexivity.
  - destruct (read_loop_error _ _ (stream_of data ReadError)
                (Nat.lt_succ_diag_r _) eq_refl eq_refl _ _ _ El) as (-> & Hfe).
    split; [split; discriminate|].
    split; [discriminate|].
    intros _.
    pose proof (read_loop_shape _ _ _ _ _ _ El) as Ht.
    pose proof (read_loop_stdout _ _ _ _ _ _ El) as Ho.
    repeat split.
    + exact Hfe.
    + autorewrite with trace; rewrite Hd; reflexivity.
    + exists (header_events p
              ++ flat_map (iteration (kmlArg_found p)) (reads t)
              ++ [Read None]).
      cbn [footer_events]; rewrite app_nil_r.
      rewrite Ht at 1; cbn [closing error].
      rewrite <- !app_assoc; reflexivity.
    + autorewrite with trace.
      rewrite header_events_stdout, Ho; cbn [footer_events stdout].
      rewrite ?app_nil_r, count_app.
      rewrite (count_none is_footer is_point _
                 ltac:(intros []; simpl; congruence)
                 (displays_are_points _ _ _ _)).
      destruct (kmlArg_found p); reflexivity.
    + intros Hk; autorewrite with trace.
      rewrite header_events_stdout, Ho, Hk; cbn [footer_events stdout].
      rewrite ?app_nil_r, count_app.
      rewrite (count_none is_header is_point _
                 ltac:(intros []; simpl; congruence)
                 (displays_are_points _ _ _ _)).
      reflexivity.
Qed.

(** C5: the exit status is 0 when help is requested and nonzero when the
    arguments do not parse, the pipeline not being run in either case; it is
    the implicit success status when the pipeline runs to completion,
    whatever the input lines were. *)
Theorem exit_statuses (p : parsed) (stdin : FILE) :
  let r := main_from p stdin in
  (rc p <> 0%Z -> helpArg_found p = true ->
   exit_status (ending r) = Some 0%Z /\ trace r = [] /\ stdin_after r = stdin)
  /\ (rc p <> 0%Z -> helpArg_found p = false ->
      (exists s, exit_status (ending r) = Some s /\ s <> 0%Z)
      /\ trace r = [] /\ stdin_after r = stdin)
  /\ (rc p = 0%Z ->
      ending r <> Running
      /\ (indexArg_found p = true \/ at_end stdin = EndOfFile ->
          ending r = EndOfMain)
      /\ (ending r <> Aborted ->
          ending r = EndOfMain /\ exit_status (ending r) = Some 0%Z)).
Proof.
  intros r; subst r; split; [|split].
  - intros Hrc Hh; rewrite (main_from_failed _ _ Hrc), Hh; repeat split.
  - intros Hrc Hh; rewrite (main_from_failed _ _ Hrc), Hh; repeat split.
    exists 1%Z; split; [reflexivity | discriminate].
  - intros Hrc.
    destruct (indexArg_found p) eqn:Hi.
    + rewrite (main_from_single _ stdin Hrc Hi); cbn [ending].
      split; [discriminate|]; split; intros _; repeat split.
    + destruct (read_loop (S (length (pending stdin))) (kmlArg_found p) stdin)
        as [[t s] e] eqn:El.
      rewrite (main_from_stream _ _ _ _ _ Hrc Hi El); cbn [ending].
      pose proof (read_loop_finishes (S (length (pending stdin)))
                    (kmlArg_found p) stdin (Nat.lt_succ_diag_r _)) as Hfin.
      rewrite El in Hfin; cbn [snd] in Hfin.
      split; [|split].
      * destruct e; cbn [termination_of]; try discriminate.
        intros _; apply Hfin; reflexivity.
      * intros [Hx|Ha]; [discriminate|].
        destruct (read_loop_eof _ _ _ (Nat.lt_succ_diag_r _) Ha _ _ _ El)
          as (-> & _); reflexivity.
      * destruct e; cbn [termination_of]; intros Hna.
        -- split; reflexivity.
        -- exfalso; apply Hna; reflexivity.
        -- exfalso; apply Hfin; reflexivity.
Qed.

Lemma points_filter (k : bool) (f : string -> string)
  (g : string -> double * double) (bs : list string) :
  filter is_point (map (fun b => display k (f b) (g b)) bs)
  = map (fun b => display k (f b) (g b)) bs.
Proof.
  induction bs as [|b bs IH]; [reflexivity|].
  cbn [map filter]; now rewrite display_is_point, IH.
Qed.

Lemma header_events_points (p : parsed) :
  filter is_point (stdout (header_events p)) = [].
Proof. unfold header_events; destruct (kmlArg_found p); reflexivity. Qed.

Lemma footer_events_points (p : parsed) (e : loop_end) :
  filter is_point (stdout (footer_events p e)) = [].
Proof. destruct e; cbn; destruct (kmlArg_found p); reflexivity. Qed.

(** C8: for every processed cell what is displayed is the coordinate the
    library gave, converted from radians to degrees and otherwise as it was,
    in both output modes. *)
Theorem coordinates_displayed_in_degrees (p : parsed) (stdin : FILE) :
  rc p = 0%Z ->
  let r := main_from p stdin in
  (forall h,
      let g := h3ToGeo h in
      doCell h false
      = [Printed (fmt_f 10 (radsToDegs (lat g)) ++ " "
                  ++ fmt_f 10 (radsToDegs (lon g)) ++ nl)%string]
      /\ doCell h true
         = [KmlPlacemark (h3ToString h BUFF_SIZE)
                         (radsToDegs (lon g)) (radsToDegs (lat g))])
  /\ filter is_point (stdout (trace r))
     = flat_map (fun h => doCell h (kmlArg_found p)) (processed p r).
Proof.
  intros Hrc r; subst r; split; [intros h; split; reflexivity|].
  unfold processed; destruct (indexArg_found p) eqn:Hi.
  - rewrite (main_from_single _ stdin Hrc Hi); cbn [trace flat_map].
    autorewrite with trace.
    rewrite !filter_app, header_events_points, footer_events_points.
    rewrite doCell_display; cbn [filter]; rewrite display_is_point.
    reflexivity.
  - destruct (read_loop (S (length (pending stdin))) (kmlArg_found p) stdin)
      as [[t s] e] eqn:El.
    rewrite (main_from_stream _ _ _ _ _ Hrc Hi El); cbn [trace].
    autorewrite with trace.
    rewrite !filter_app, header_events_points, footer_events_points.
    rewrite (read_loop_stdout _ _ _ _ _ _ El), points_filter, app_nil_r.
    cbn [app].
    induction (reads t) as [|b bs IH]; [reflexivity|].
    cbn [map flat_map]; now rewrite doCell_display, IH.
Qed.

(** C9: without [--kml] the name and description flags change nothing: two
    runs that differ only in them, on the same stdin, are the same run. *)
Theorem kml_metadata_unused_without_kml (p q : parsed) (stdin : FILE) :
  kmlArg_found p = false -> kmlArg_found q = false ->
  rc p = rc q -> helpArg_found p = helpArg_found q ->
  indexArg_found p = indexArg_found q ->
  index (vars p) = index (vars q) ->
  main_from p stdin = main_from q stdin.
Proof.
  intros Hp Hq Hrc Hh Hi Hx; unfold main_from.
  rewrite Hp, Hq, Hrc, Hh, Hi, Hx; reflexivity.
Qed.

Lemma nl_length : length nl = 1.
Proof. reflexivity. Qed.

(** C10: a physical line longer than the buffer holds is read in several
    calls of [fgets]; each piece is decoded and displayed as an item of its
    own, so the line gives more than one output item. *)
Theorem long_line_is_split (p : parsed) (body rest : string) (e : stream_end) :
  rc p = 0%Z -> indexArg_found p = false ->
  lacks newline body = true -> BUFF_SIZE - 1 <= length body ->
  let r := main_from p (stream_of (body ++ nl ++ rest) e) in
  let k := kmlArg_found p in
  exists second more,
    reads (trace r) = take (BUFF_SIZE - 1) body :: second :: more
    /\ second <> ""%string
    /\ (exists tail,
          (drop (BUFF_SIZE - 1) body ++ nl)%string = (second ++ tail)%string)
    /\ (exists before after,
          stdout (trace r)
          = before ++ doCell (stringToH3 (take (BUFF_SIZE - 1) body)) k
            ++ doCell (stringToH3 second) k ++ after)
    /\ 2 <= List.length (filter is_point (stdout (trace r))).
Proof.
  intros Hrc Hi Hb Hlen r k; subst r k.
  set (data := (body ++ nl ++ rest)%string).
  set (d := drop (BUFF_SIZE - 1) body).
  assert (Hdata : exists n, length data = S (S n)).
  { unfold data; rewrite !length_append, nl_length.
    exists (length body + length rest - 1); unfold BUFF_SIZE in Hlen; lia. }
  destruct Hdata as [n Hn].
  assert (Hd : lacks newline d = true) by (apply lacks_drop; exact Hb).
  (* the two first reads *)
  assert (H1 : fgets BUFF_SIZE (stream_of data e)
               = (Some (take (BUFF_SIZE - 1) body),
                  mkFILE (d ++ nl ++ rest) e false false)).
  { unfold stream_of, data; rewrite (fgets_line _ _ _ _ _ Hb).
    replace (length body <? BUFF_SIZE - 1)%nat with false; [reflexivity|].
    symmetry; apply Nat.ltb_ge; lia. }
  pose proof (fgets_line d rest e false false Hd) as H2.
  set (second := if (length d <? BUFF_SIZE - 1)%nat then (d ++ nl)%string
                 else take (BUFF_SIZE - 1) d).
  set (stdin2 := if (length d <? BUFF_SIZE - 1)%nat then mkFILE rest e false false
                 else mkFILE (drop (BUFF_SIZE - 1) d ++ nl ++ rest) e false false).
  assert (H2' : fgets BUFF_SIZE (mkFILE (d ++ nl ++ rest) e false false)
                = (Some second, stdin2)).
  { rewrite H2; unfold second, stdin2.
    destruct (length d <? BUFF_SIZE - 1)%nat; reflexivity. }
  destruct (read_loop (S n) (kmlArg_found p) stdin2) as [[t2 s2] e2] eqn:E2.
  assert (El : read_loop (S (length (pending (stream_of data e))))
                 (kmlArg_found p) (stream_of data e)
               = (iteration (kmlArg_found p) (take (BUFF_SIZE - 1) body)
                  ++ iteration (kmlArg_found p) second ++ t2, s2, e2)).
  { cbn [stream_of pending]; rewrite Hn.
    rewrite read_loop_unfold, H1, read_loop_unfold, H2', E2; reflexivity. }
  rewrite (main_from_stream _ _ _ _ _ Hrc Hi El); cbn [trace].
  exists second, (reads t2).
  assert (Hs : second <> ""%string
               /\ exists tail, (d ++ nl)%string = (second ++ tail)%string).
  { unfold second; destruct (length d <? BUFF_SIZE - 1)%nat eqn:Ed.
    - split; [destruct d; discriminate|].
      exists ""%string; now rewrite append_nil_r.
    - apply Nat.ltb_ge in Ed; split.
      + destruct d; [simpl in Ed; unfold BUFF_SIZE in Ed; lia | discriminate].
      + exists (drop (BUFF_SIZE - 1) d ++ nl)%string.
        now rewrite <- append_assoc, take_drop. }
  destruct Hs as [Hs1 Hs2].
  assert (Hout : stdout (header_events p
                         ++ (iteration (kmlArg_found p) (take (BUFF_SIZE - 1) body)
                             ++ iteration (kmlArg_found p) second ++ t2)
                         ++ footer_events p e2)
                 = stdout (header_events p)
                   ++ doCell (stringToH3 (take (BUFF_SIZE - 1) body)) (kmlArg_found p)
                   ++ doCell (stringToH3 second) (kmlArg_found p)
                   ++ (stdout t2 ++ stdout (footer_events p e2))).
  { rewrite !stdout_app, !iteration_stdout, <- !app_assoc; reflexivity. }
  repeat split.
  - autorewrite with trace; rewrite !iteration_reads; reflexivity.
  - exact Hs1.
  - exact Hs2.
  - eexists _, _; exact Hout.
  - rewrite Hout, !filter_app, !doCell_display; cbn [filter].
    rewrite !display_is_point, !length_app; cbn [List.length]; lia.
Qed.

End Claims.

(** ** The name and the description of the KML document *)

Lemma drop_replicate (k n : nat) (c : ascii) :
  drop k (replicate n c) = replicate (n - k) c.
Proof.
  revert n; induction k as [|k IH]; intros [|n]; cbn [drop replicate Nat.sub];
    try reflexivity.
  apply IH.
Qed.

(** Up to [w] characters written in a zeroed array of more than [w]
    characters are followed by a NUL. *)
Lemma stored_chars (text : string) (w n : nat) :
  w < n ->
  c_str (overwrite (take w (c_str text)) (replicate n NUL))
  = take w (c_str text).
Proof.
  intros Hw; unfold overwrite; rewrite drop_replicate.
  assert (Hl : length (take w (c_str text)) <= w)
    by (rewrite take_length; lia).
  destruct (n - length (take w (c_str text))) as [|r] eqn:E; [lia|].
  cbn [replicate]; apply c_str_append_NUL, lacks_take, c_str_lacks_NUL.
Qed.

Lemma scan_format_255c : scan_format "%255c" = Some (ConvChars 255).
Proof. reflexivity. Qed.

Lemma scan_value_name (text : string) (m : locals) :
  scan_value kmlNameArg text initial_locals = Some m ->
  c_str (userKmlName m) = take 255 (c_str text).
Proof.
  unfold scan_value; cbn [scanFormat value kmlNameArg].
  rewrite scan_format_255c; intros E; injection E as <-.
  exact (stored_chars text 255 BUFF_SIZE ltac:(unfold BUFF_SIZE; lia)).
Qed.

Lemma scan_value_desc (text : string) (m : locals) :
  scan_value kmlDescArg text initial_locals = Some m ->
  c_str (userKmlDesc m) = take 255 (c_str text).
Proof.
  unfold scan_value; cbn [scanFormat value kmlDescArg].
  rewrite scan_format_255c; intros E; injection E as <-.
  exact (stored_chars text 255 BUFF_SIZE ltac:(unfold BUFF_SIZE; lia)).
Qed.

Section Metadata.
Context `{api : H3Api} `{parser : ArgParser}.

Lemma main_from_kml_header (p : parsed) (stdin : FILE) :
  rc p = 0%Z -> kmlArg_found p = true ->
  hd_error (stdout (trace (main_from p stdin)))
  = Some (KmlHeader (header_name p) (header_desc p)).
Proof.
  intros Hrc Hk; destruct (indexArg_found p) eqn:Hi.
  - rewrite (main_from_single _ stdin Hrc Hi); cbn [trace].
    rewrite stdout_app, header_events_stdout, Hk; reflexivity.
  - destruct (read_loop (S (length (pending stdin))) (kmlArg_found p) stdin)
      as [[t s] e] eqn:El.
    rewrite (main_from_stream _ _ _ _ _ Hrc Hi El); cbn [trace].
    rewrite stdout_app, header_events_stdout, Hk; reflexivity.
Qed.

(** C6: the name and the description in the KML header are ["geo from H3"]
    and ["from h3ToGeo"] when their flags are absent, and the strings the
    user gave, cut to at most 255 characters by the scan format, when the
    flags are present. *)
Theorem kml_header_metadata (argv : list string) (stdin : FILE) :
  let p := parse argv in
  rc p = 0%Z -> kmlArg_found p = true ->
  hd_error (stdout (trace (main argv stdin)))
  = Some (KmlHeader (header_name p) (header_desc p))
  /\ (kmlNameArg_found p = false -> header_name p = "geo from H3"%string)
  /\ (kmlDescArg_found p = false -> header_desc p = "from h3ToGeo"%string)
  /\ (kmlNameArg_found p = true ->
      forall text m,
        scan_value kmlNameArg text initial_locals = Some m ->
        userKmlName (vars p) = userKmlName m ->
        header_name p = take 255 (c_str text)
        /\ length (header_name p) <= 255
        /\ (lacks NUL text = true -> length text <= 255 ->
            header_name p = text))
  /\ (kmlDescArg_found p = true ->
      forall text m,
        scan_value kmlDescArg text initial_locals = Some m ->
        userKmlDesc (vars p) = userKmlDesc m ->
        header_desc p = take 255 (c_str text)
        /\ length (header_desc p) <= 255
        /\ (lacks NUL text = true -> length text <= 255 ->
            header_desc p = text)).
Proof.
  intros p Hrc Hk.
  split; [apply (main_from_kml_header p stdin Hrc Hk)|].
  split; [intros H; unfold header_name; now rewrite H|].
  split; [intros H; unfold header_desc; now rewrite H|].
  split.
  - intros H text m Hs Hm; unfold header_name; rewrite H, Hm.
    rewrite (scan_value_name _ _ Hs).
    repeat split.
    + rewrite take_length; lia.
    + intros Hn Hl; rewrite (c_str_lacks _ Hn); now apply take_all.
  - intros H text m Hs Hm; unfold header_desc; rewrite H, Hm.
    rewrite (scan_value_desc _ _ Hs).
    repeat split.
    + rewrite take_length; lia.
    + intros Hn Hl; rewrite (c_str_lacks _ Hn); now apply take_all.
Qed.

End Metadata.

(** ** The filter at work *)

Example run_plain :
  stdout (trace (@main sample_api reference_parser ["h3ToGeo"] sample_stdin))
  = [Printed ("-57.2957795131 57.2957795131" ++ nl);
     Printed ("-57.2957795131 93.1056417088" ++ nl)].
Proof. vm_compute. reflexivity. Qed.

Example run_kml_empty_stdin :
  trace (@main sample_api reference_parser ["h3ToGeo"; "--kml"]
           (stream_of "" EndOfFile))
  = [Out (KmlHeader "geo from H3" "from h3ToGeo"); Read None; Out KmlFooter].
Proof. vm_compute. reflexivity. Qed.

Example run_index_flag :
  stdout (trace (@main sample_api reference_parser
                   ["h3ToGeo"; "--kml"; "-i"; "8928308280fffff"] sample_stdin))
  = stdout (trace (@main sample_api reference_parser ["h3ToGeo"; "-k"]
                     (stream_of sample_line EndOfFile))).
Proof. vm_compute. reflexivity. Qed.

Example run_help :
  @main sample_api reference_parser ["h3ToGeo"; "--kml"; "-h"] sample_stdin
  = mkRun [] sample_stdin (Return 0).
Proof. vm_compute. reflexivity. Qed.

Example run_unknown_flag :
  @main sample_api reference_parser ["h3ToGeo"; "--bogus"] sample_stdin
  = mkRun [] sample_stdin (Return 1).
Proof. vm_compute. reflexivity. Qed.

(** The claims at these inputs. *)

Lemma single_value_same_as_stream_witness :
  physical_lines sample_line = [sample_line]
  /\ fits_buffer sample_line
  /\ @stringToH3 sample_api sample_line = sample_index
  /\ stdout (trace (@main_from sample_api
                      (parsed_ok true true false false
                         (mkLocals sample_index (userKmlName initial_locals)
                                   (userKmlDesc initial_locals)))
                      sample_stdin))
     = stdout (trace (@main_from sample_api
                        (parsed_ok false true false false initial_locals)
                        (stream_of sample_line EndOfFile))).
Proof.
  split; [vm_compute; reflexivity|].
  split; [unfold fits_buffer; vm_compute; lia|].
  split; [vm_compute; reflexivity|].
  apply (@single_value_same_as_stream sample_api sample_index sample_line
           true false false initial_locals sample_stdin);
    [vm_compute; reflexivity | unfold fits_buffer; vm_compute; lia
    | vm_compute; reflexivity].
Defined.


(** C7 as stated fails on a line longer than the buffer: two lines, the
    first of 300 characters, give three items. *)
Lemma plain_long_line_three_items :
  List.length (physical_lines (long_line ++ sample_line)) = 2
  /\ List.length
       (stdout (trace (@main_from sample_api plain_stream
                         (stream_of (long_line ++ sample_line) EndOfFile))))
     = 3
  /\ List.length
       (stdout (trace (@main_from sample_api plain_stream
                         (stream_of (long_line ++ sample_line) EndOfFile))))
     <> List.length (physical_lines (long_line ++ sample_line)).
Proof. vm_compute; repeat split; discriminate. Qed.


Lemma plain_text_one_line_per_item_witness :
  rc plain_stream = 0%Z /\ kmlArg_found plain_stream = false
  /\ stdout (trace (@main_from sample_api plain_stream sample_stdin))
     = map (fun h => Printed (@plain_line sample_api h))
           (@processed sample_api plain_stream
              (@main_from sample_api plain_stream sample_stdin)).
Proof.
  split; [reflexivity|].
  split; [reflexivity|].
  exact (proj1 (@plain_text_one_line_per_item sample_api plain_stream
                  sample_stdin eq_refl eq_refl)).
Defined.

(** C3 as stated fails for a library whose coordinates are not numbers:
    the line is [nan -inf], with no digit after a point. *)
Lemma plain_text_not_a_number :
  stdout (trace (@main_from nan_api plain_stream
                   (stream_of sample_line EndOfFile)))
  = [Printed ("nan -inf" ++ nl)]
  /\ is_fixed_point 10 "nan" = false
  /\ is_fixed_point 10 "-inf" = false.
Proof. vm_compute; repeat split. Qed.

Lemma stream_loop_exits_witness :
  rc kml_stream = 0%Z /\ indexArg_found kml_stream = false
  /\ ending (@main_from sample_api kml_stream
               (stream_of (sample_line ++ "8a2a") ReadError)) = Aborted
  /\ count is_footer
       (stdout (trace (@main_from sample_api kml_stream
                         (stream_of (sample_line ++ "8a2a") ReadError)))) = 0.
Proof.
  split; [reflexivity|].
  split; [reflexivity|].
  destruct (@stream_loop_exits sample_api kml_stream
              (sample_line ++ "8a2a") ReadError eq_refl eq_refl)
    as (_ & _ & H).
  destruct (H eq_refl) as (Ha & _ & _ & _ & Hf & _).
  split; [exact Ha | exact Hf].
Defined.

Lemma kml_header_metadata_witness :
  rc (@parse reference_parser ["h3ToGeo"; "--kml"; "--kml-name"; "cells"])
  = 0%Z
  /\ kmlArg_found
       (@parse reference_parser ["h3ToGeo"; "--kml"; "--kml-name"; "cells"])
     = true
  /\ header_name
       (@parse reference_parser ["h3ToGeo"; "--kml"; "--kml-name"; "cells"])
     = "cells"%string
  /\ header_desc
       (@parse reference_parser ["h3ToGeo"; "--kml"; "--kml-name"; "cells"])
     = "from h3ToGeo"%string.
Proof.
  split; [vm_compute; reflexivity|].
  split; [vm_compute; reflexivity|].
  destruct (@kml_header_metadata sample_api reference_parser
              ["h3ToGeo"; "--kml"; "--kml-name"; "cells"] sample_stdin
              ltac:(vm_compute; reflexivity) ltac:(vm_compute; reflexivity))
    as (_ & _ & Hd & Hn & _).
  split.
  - destruct (Hn ltac:(vm_compute; reflexivity) "cells"%string
                (write_chars SlotKmlName "cells" initial_locals)
                ltac:(vm_compute; reflexivity) ltac:(vm_compute; reflexivity))
      as (_ & _ & Ht).
    apply Ht; vm_compute; [reflexivity | lia].
  - apply Hd; vm_compute; reflexivity.
Defined.

Lemma coordinates_displayed_in_degrees_witness :
  rc kml_stream = 0%Z
  /\ filter is_point
       (stdout (trace (@main_from sample_api kml_stream sample_stdin)))
     = flat_map (fun h => @doCell sample_api h true)
         (@processed sample_api kml_stream
            (@main_from sample_api kml_stream sample_stdin)).
Proof.
  split; [reflexivity|].
  exact (proj2 (@coordinates_displayed_in_degrees sample_api kml_stream
                  sample_stdin eq_refl)).
Defined.

Lemma kml_metadata_unused_without_kml_witness :
  kmlArg_found plain_stream_named = false
  /\ kmlArg_found plain_stream = false
  /\ @main_from sample_api plain_stream_named sample_stdin
     = @main_from sample_api plain_stream sample_stdin.
Proof.
  split; [reflexivity|].
  split; [reflexivity|].
  apply (@kml_metadata_unused_without_kml sample_api plain_stream_named
           plain_stream sample_stdin); reflexivity.
Defined.

Lemma long_line_is_split_witness :
  rc plain_stream = 0%Z /\ indexArg_found plain_stream = false
  /\ lacks newline long_body = true
  /\ BUFF_SIZE - 1 <= length long_body
  /\ 2 <= List.length
            (filter is_point
               (stdout (trace (@main_from sample_api plain_stream
                                 (stream_of (long_body ++ nl ++ "") EndOfFile))))).
Proof.
  split; [reflexivity|].
  split; [reflexivity|].
  split; [vm_compute; reflexivity|].
  split; [vm_compute; lia|].
  destruct (@long_line_is_split sample_api plain_stream long_body ""
              EndOfFile eq_refl eq_refl ltac:(vm_compute; reflexivity)
              ltac:(vm_compute; lia))
    as (second & more & _ & _ & _ & _ & H).
  exact H.
Defined.

(** * Further properties of the filter *)

Section Further.
Context `{api : H3Api}.

(** ** The buffers read *)

Lemma read_line_bounds (n : nat) (s l r : string) (x : bool) :
  read_line n s = (l, r, x) ->
  length l <= n /\ lacks newline (take (length l - 1) l) = true.
Proof.
  revert s l r x; induction n as [|n IH]; intros s l r x; cbn [read_line].
  - intros E; injection E as <- <- <-; split; [apply Nat.le_refl | reflexivity].
  - destruct s as [|c s].
    + intros E; injection E as <- <- <-; split; [apply Nat.le_0_l | reflexivity].
    + destruct (c =? newline)%char eqn:Ec.
      * intros E; injection E as <- <- <-; cbn [length Nat.sub take lacks].
        split; [lia | reflexivity].
      * destruct (read_line n s) as [[l' r'] x'] eqn:E'.
        intros E; injection E as <- <- <-.
        destruct (IH _ _ _ _ E') as [Hl Hn].
        cbn [length]; split; [lia|].
        destruct l' as [|d l'']; [reflexivity|].
        cbn [length Nat.sub] in *; rewrite Nat.sub_0_r in *.
        cbn [take lacks]; rewrite Ec; exact Hn.
Qed.

Lemma fgets_well_filled (stream stream' : FILE) (b : string) :
  fgets BUFF_SIZE stream = (Some b, stream') -> well_filled b.
Proof.
  intros Hg.
  destruct (fgets_some _ _ _ BUFF_SIZE_room _ Hg) as (_ & Hb & _).
  split; [exact Hb|].
  revert Hg; unfold fgets.
  destruct (read_line (BUFF_SIZE - 1) (pending stream)) as [[l r] x] eqn:E.
  destruct (read_line_bounds _ _ _ _ _ E) as [Hl Hn].
  destruct x.
  - destruct (at_end stream); [|discriminate].
    destruct l as [|c l]; [discriminate|].
    intros H; injection H as <- _; split; assumption.
  - intros H; injection H as <- _; split; assumption.
Qed.

Lemma read_loop_well_filled (fuel : nat) (k : bool) (stdin : FILE) :
  Forall well_filled (reads (fst (fst (read_loop fuel k stdin)))).
Proof.
  revert stdin; induction fuel as [|fuel IH]; intros stdin; [constructor|].
  rewrite read_loop_unfold.
  destruct (fgets BUFF_SIZE stdin) as [[b|] s1] eqn:Eg.
  - specialize (IH s1).
    destruct (read_loop fuel k s1) as [[t1 s2] e1]; cbn [fst] in *.
    rewrite reads_app, iteration_reads; cbn [app].
    constructor; [exact (fgets_well_filled _ _ _ Eg) | exact IH].
  - destruct (feof s1); constructor.
Qed.

Lemma main_from_reads (p : parsed) (stdin : FILE) :
  rc p = 0%Z -> indexArg_found p = false ->
  reads (trace (main_from p stdin)) = buffers (kmlArg_found p) stdin.
Proof.
  intros Hrc Hi; unfold buffers.
  destruct (read_loop (S (length (pending stdin))) (kmlArg_found p) stdin)
    as [[t s] e] eqn:El.
  rewrite (main_from_stream _ _ _ _ _ Hrc Hi El); cbn [trace fst].
  autorewrite with trace; reflexivity.
Qed.

Lemma c_str_prefix (b : string) : exists rest, b = (c_str b ++ rest)%string.
Proof.
  induction b as [|c b [rest IH]]; [exists ""%string; reflexivity|].
  cbn [c_str]; destruct (c =? NUL)%char.
  - exists (String c b); reflexivity.
  - exists rest; cbn [append]; now rewrite <- IH.
Qed.

Lemma take_append_le (n : nat) (a r : string) :
  n <= length a -> take n (a ++ r) = take n a.
Proof.
  revert a; induction n as [|n IH]; intros a H.
  - destruct a, r; reflexivity.
  - destruct a as [|c a]; [simpl in H; lia|].
    change (String c (take n (a ++ r)) = String c (take n a)).
    rewrite IH by (simpl in H; lia); reflexivity.
Qed.

Lemma lacks_take_le (c : ascii) (m n : nat) (s : string) :
  m <= n -> lacks c (take n s) = true -> lacks c (take m s) = true.
Proof.
  revert n s; induction m as [|m IH]; intros n s Hmn H; [reflexivity|].
  destruct n as [|n]; [lia|].
  destruct s as [|d s]; [reflexivity|].
  cbn [take lacks] in *; apply andb_true_iff in H as [Hd Hs].
  rewrite Hd, (IH n s) by (assumption || lia); reflexivity.
Qed.

(** What the callee reads of a filled array, its C string, is a prefix of
    the array: no longer, and with a newline at most at its end. *)
Lemma well_filled_c_str (b : string) :
  well_filled b ->
  length (c_str b) <= BUFF_SIZE - 1
  /\ (exists rest, b = (c_str b ++ rest)%string)
  /\ lacks newline (take (length (c_str b) - 1) (c_str b)) = true
  /\ (lacks NUL b = true -> c_str b = b).
Proof.
  intros (_ & Hlen & Hnl).
  destruct (c_str_prefix b) as [rest Hb].
  assert (Hle : length (c_str b) <= length b)
    by (rewrite Hb at 2; rewrite length_append; lia).
  split; [lia|].
  split; [exists rest; exact Hb|].
  split; [|apply c_str_lacks].
  rewrite <- (take_append_le (length (c_str b) - 1) (c_str b) rest) by lia.
  rewrite <- Hb.
  apply (lacks_take_le _ _ (length b - 1)); [lia | exact Hnl].
Qed.

(** X1: every successful [fgets] of the loop fills [buff] with at least one
    and at most [BUFF_SIZE - 1] characters, a newline being at most the last
    of them; the C string [stringToH3] then reads from [buff] is the part
    before the first NUL: possibly empty, never longer than
    [BUFF_SIZE - 1] characters, with a newline at most at its end, and the
    whole of what was read when this holds no NUL. *)
Theorem buffers_well_filled (p : parsed) (stdin : FILE) :
  Forall (fun b =>
            well_filled b
            /\ length (c_str b) <= BUFF_SIZE - 1
            /\ (exists rest, b = (c_str b ++ rest)%string)
            /\ lacks newline (take (length (c_str b) - 1) (c_str b)) = true
            /\ (lacks NUL b = true -> c_str b = b))
         (reads (trace (main_from p stdin))).
Proof.
  assert (H : Forall well_filled (reads (trace (main_from p stdin)))).
  { destruct (Z.eq_dec (rc p) 0) as [Hrc|Hrc].
    - destruct (indexArg_found p) eqn:Hi.
      + rewrite (main_from_single _ stdin Hrc Hi); cbn [trace].
        autorewrite with trace; constructor.
      + rewrite (main_from_reads _ _ Hrc Hi); apply read_loop_well_filled.
    - rewrite (main_from_failed _ _ Hrc); constructor. }
  revert H; apply Forall_impl; intros b Hb.
  split; [exact Hb | apply well_filled_c_str; exact Hb].
Qed.

(** ** The whole input is read *)

Lemma fgets_none_pending (n : nat) (stream stream' : FILE) :
  fgets n stream = (None, stream') -> pending stream' = ""%string.
Proof.
  unfold fgets.
  destruct (read_line (n - 1) (pending stream)) as [[l r] x].
  destruct x; [|discriminate].
  destruct (at_end stream); intros E; apply pair_equal_spec in E as [_ <-];
    reflexivity.
Qed.

Lemma iteration_read_calls (k : bool) (b : string) :
  read_calls (iteration k b) = 1.
Proof. unfold iteration; cbn [read_calls]; now rewrite read_calls_Out. Qed.

(** A loop that ends made one call of [fgets] more than it read buffers:
    the call that failed. *)
Lemma read_loop_read_calls (fuel : nat) (k : bool) (stdin s : FILE)
  (t : list event) (e : loop_end) :
  read_loop fuel k stdin = (t, s, e) -> e <> Unfinished ->
  read_calls t = S (List.length (reads t)).
Proof.
  revert stdin s t e; induction fuel as [|fuel IH]; intros stdin s t e.
  - intros E; triple E; intros H; contradiction H; reflexivity.
  - rewrite read_loop_unfold.
    destruct (fgets BUFF_SIZE stdin) as [[b|] s1].
    + destruct (read_loop fuel k s1) as [[t1 s2] e1] eqn:E1.
      intros E; triple E; intros He.
      rewrite read_calls_app, reads_app, iteration_read_calls, iteration_reads.
      rewrite (IH _ _ _ _ E1 He); reflexivity.
    + destruct (feof s1); intros E; triple E; reflexivity.
Qed.

Lemma read_loop_drained (fuel : nat) (k : bool) (stdin : FILE) :
  length (pending stdin) < fuel ->
  forall t s e, read_loop fuel k stdin = (t, s, e) -> pending s = ""%string.
Proof.
  revert stdin; induction fuel as [|fuel IH]; intros stdin Hf t s e; [lia|].
  rewrite read_loop_unfold.
  destruct (fgets BUFF_SIZE stdin) as [[b|] s1] eqn:Eg.
  - destruct (fgets_some _ _ _ BUFF_SIZE_room _ Eg) as (Hp & Hb & _).
    assert (Hlt : length (pending s1) < fuel).
    { rewrite Hp, length_append in Hf.
      destruct b; [contradiction|]; simpl in Hf; lia. }
    destruct (read_loop fuel k s1) as [[t1 s2] e1] eqn:E1.
    intros E; triple E; exact (IH s1 Hlt _ _ _ E1).
  - pose proof (fgets_none_pending _ _ _ Eg) as Hp.
    destruct (feof s1); intros E; triple E; exact Hp.
Qed.

(** X2: in streaming mode on a stream that ends with end-of-file nothing of
    the input is lost or read twice: the buffers handed to [stringToH3], put
    end to end, are the input; the stream is left empty, at end-of-file; and
    [fgets] was called once more than there are buffers. *)
Theorem stream_reads_whole_input (p : parsed) (stdin : FILE) :
  rc p = 0%Z -> indexArg_found p = false -> at_end stdin = EndOfFile ->
  let r := main_from p stdin in
  cat (reads (trace r)) = pending stdin
  /\ pending (stdin_after r) = ""%string
  /\ feof (stdin_after r) = true
  /\ ending r = EndOfMain
  /\ read_calls (trace r) = S (List.length (reads (trace r))).
Proof.
  intros Hrc Hi Ha r; subst r.
  destruct (read_loop (S (length (pending stdin))) (kmlArg_found p) stdin)
    as [[t s] e] eqn:El.
  rewrite (main_from_stream _ _ _ _ _ Hrc Hi El).
  cbn [trace stdin_after ending].
  destruct (read_loop_eof _ _ _ (Nat.lt_succ_diag_r _) Ha _ _ _ El)
    as (-> & Hfe & Hc).
  pose proof (read_loop_drained _ _ _ (Nat.lt_succ_diag_r _) _ _ _ El) as Hd.
  pose proof (read_loop_read_calls _ _ _ _ _ _ El ltac:(discriminate)) as Hn.
  autorewrite with trace.
  repeat split; try assumption.
  unfold header_events, footer_events.
  destruct (kmlArg_found p); cbn [map read_calls kmlPtsHeader kmlPtsFooter];
    rewrite ?Nat.add_0_r; exact Hn.
Qed.

(** ** The output mode *)

Lemma forallb_display_printed (f : string -> string)
  (g : string -> double * double) (bs : list string) :
  forallb is_printed (map (fun b => display false (f b) (g b)) bs) = true.
Proof. induction bs as [|b bs IH]; [reflexivity | exact IH]. Qed.

Lemma forallb_display_kml (f : string -> string)
  (g : string -> double * double) (bs : list string) :
  forallb (fun o => negb (is_printed o))
          (map (fun b => display true (f b) (g b)) bs) = true.
Proof. induction bs as [|b bs IH]; [reflexivity | exact IH]. Qed.

(** X3: the two output modes never mix: without [--kml] everything written
    on stdout is a line printed by [printf] (no header, placemark or
    footer), and with [--kml] no such line is written. *)
Theorem output_modes_never_mix (p : parsed) (stdin : FILE) :
  let out := stdout (trace (main_from p stdin)) in
  (kmlArg_found p = false -> forallb is_printed out = true)
  /\ (kmlArg_found p = true ->
      forallb (fun o => negb (is_printed o)) out = true).
Proof.
  intros out; subst out.
  destruct (Z.eq_dec (rc p) 0) as [Hrc|Hrc];
    [|rewrite (main_from_failed _ _ Hrc); split; reflexivity].
  destruct (indexArg_found p) eqn:Hi.
  - rewrite (main_from_single _ stdin Hrc Hi); cbn [trace].
    autorewrite with trace.
    rewrite header_events_stdout, footer_events_stdout, doCell_display.
    split; intros Hk; rewrite Hk; reflexivity.
  - destruct (read_loop (S (length (pending stdin))) (kmlArg_found p) stdin)
      as [[t s] e] eqn:El.
    rewrite (main_from_stream _ _ _ _ _ Hrc Hi El); cbn [trace].
    autorewrite with trace.
    rewrite header_events_stdout, footer_events_stdout.
    rewrite (read_loop_stdout _ _ _ _ _ _ El).
    split; intros Hk; rewrite Hk; rewrite !forallb_app.
    + rewrite forallb_display_printed; destruct e; reflexivity.
    + rewrite forallb_display_kml; destruct e; reflexivity.
Qed.

(** ** Inputs put end to end *)

Lemma buffers_unfold (k : bool) (stdin : FILE) :
  buffers k stdin
  = match fgets BUFF_SIZE stdin with
    | (Some b, stdin') => b :: buffers k stdin'
    | (None, _) => []
    end.
Proof.
  unfold buffers; rewrite read_loop_unfold.
  destruct (fgets BUFF_SIZE stdin) as [[b|] s1] eqn:Eg.
  - destruct (fgets_some _ _ _ BUFF_SIZE_room _ Eg) as (Hp & Hb & _).
    assert (Hlt : length (pending s1) < length (pending stdin)).
    { rewrite Hp, length_append; destruct b; [contradiction|]; simpl; lia. }
    rewrite (read_loop_fuel (length (pending stdin)) (S (length (pending s1))))
      by lia.
    destruct (read_loop (S (length (pending s1))) k s1) as [[t1 s2] e1].
    cbn [fst]; now rewrite reads_app, iteration_reads.
  - destruct (feof s1); reflexivity.
Qed.

Lemma buffers_empty (k : bool) (e : stream_end) (fe fr : bool) :
  buffers k (mkFILE "" e fe fr) = [].
Proof.
  rewrite buffers_unfold; pose proof (fgets_empty e fe fr) as H.
  destruct (fgets BUFF_SIZE (mkFILE "" e fe fr)) as [[b|] s1];
    [discriminate H | reflexivity].
Qed.

(** On whole lines [read_line] never runs out of input, what it leaves is
    made of whole lines again, and what follows the lines is not looked
    at. *)
Lemma read_line_whole (n : nat) (c : ascii) (a : string) :
  ends_line (String c a) = true ->
  exists l r,
    ends_line r = true /\ length r <= length a
    /\ forall b, read_line (S n) (String c a ++ b) = (l, (r ++ b)%string, false).
Proof.
  revert c a; induction n as [|n IH]; intros c a Ha.
  - destruct (c =? newline)%char eqn:Ec.
    + exists (String c ""), a; split; [|split].
      * destruct a; [reflexivity | exact Ha].
      * apply Nat.le_refl.
      * intros b; cbn [append read_line]; rewrite Ec; reflexivity.
    + destruct a as [|d a]; [cbn in Ha; congruence|].
      exists (String c ""), (String d a); split; [|split].
      * exact Ha.
      * apply Nat.le_refl.
      * intros b; cbn [append read_line]; rewrite Ec; reflexivity.
  - destruct (c =? newline)%char eqn:Ec.
    + exists (String c ""), a; split; [|split].
      * destruct a; [reflexivity | exact Ha].
      * apply Nat.le_refl.
      * intros b; cbn [append read_line]; rewrite Ec; reflexivity.
    + destruct a as [|d a]; [cbn in Ha; congruence|].
      destruct (IH d a Ha) as (l & r & Hr & Hl & Hall).
      exists (String c l), r; split; [|split].
      * exact Hr.
      * simpl; lia.
      * intros b; specialize (Hall b).
        change (String c (String d a) ++ b)%string
          with (String c (String d a ++ b)).
        remember (S n) as m; cbn [read_line]; rewrite Ec, Hall; reflexivity.
Qed.

Lemma fgets_whole (c : ascii) (a : string) :
  ends_line (String c a) = true ->
  exists l r,
    ends_line r = true /\ length r <= length a
    /\ forall b e fe fr,
        fgets BUFF_SIZE (mkFILE (String c a ++ b) e fe fr)
        = (Some l, mkFILE (r ++ b) e fe fr).
Proof.
  intros Ha.
  destruct (read_line_whole (BUFF_SIZE - 2) c a Ha) as (l & r & Hr & Hl & Hall).
  exists l, r; repeat split; try assumption.
  intros b e fe fr; unfold fgets.
  cbn [pending at_end eof_indicator error_indicator].
  change (BUFF_SIZE - 1) with (S (BUFF_SIZE - 2)); rewrite Hall; reflexivity.
Qed.

(** The buffers read from whole lines followed by [b] are those read from
    the lines, then those read from [b]. *)
Lemma buffers_append (k : bool) (n : nat) (a : string) :
  length a <= n -> ends_line a = true ->
  forall b e fe fr,
    buffers k (mkFILE (a ++ b) e fe fr)
    = buffers k (mkFILE a e fe fr) ++ buffers k (mkFILE b e fe fr).
Proof.
  revert a; induction n as [|n IH]; intros a Hn Ha b e fe fr.
  - destruct a; [|simpl in Hn; lia].
    rewrite buffers_empty; reflexivity.
  - destruct a as [|c a]; [rewrite buffers_empty; reflexivity|].
    destruct (fgets_whole c a Ha) as (l & r & Hr & Hl & Hall).
    rewrite (buffers_unfold k (mkFILE (String c a ++ b) e fe fr)), Hall.
    rewrite (buffers_unfold k (mkFILE (String c a) e fe fr)).
    pose proof (Hall ""%string e fe fr) as H0.
    rewrite !append_nil_r in H0; rewrite H0.
    rewrite (IH r ltac:(simpl in Hn; lia) Hr); reflexivity.
Qed.

(** Whole lines are read the same however the stream ends after them. *)
Lemma buffers_whole (k : bool) (n : nat) (a : string) :
  length a <= n -> ends_line a = true ->
  forall e fe fr e' fe' fr',
    buffers k (mkFILE a e fe fr) = buffers k (mkFILE a e' fe' fr').
Proof.
  revert a; induction n as [|n IH]; intros a Hn Ha e fe fr e' fe' fr'.
  - destruct a; [|simpl in Hn; lia].
    rewrite !buffers_empty; reflexivity.
  - destruct a as [|c a]; [rewrite !buffers_empty; reflexivity|].
    destruct (fgets_whole c a Ha) as (l & r & Hr & Hl & Hall).
    rewrite (buffers_unfold k (mkFILE (String c a) e fe fr)).
    rewrite (buffers_unfold k (mkFILE (String c a) e' fe' fr')).
    pose proof (Hall ""%string e fe fr) as H0.
    pose proof (Hall ""%string e' fe' fr') as H1.
    rewrite !append_nil_r in H0, H1; rewrite H0, H1.
    rewrite (IH r ltac:(simpl in Hn; lia) Hr e fe fr e' fe' fr'); reflexivity.
Qed.

(** The points a streaming run displays, from the buffers it read. *)
Lemma stream_points (p : parsed) (stdin : FILE) :
  rc p = 0%Z -> indexArg_found p = false ->
  filter is_point (stdout (trace (main_from p stdin)))
  = map (fun b => display (kmlArg_found p)
                          (h3ToString (stringToH3 b) BUFF_SIZE)
                          (degrees (stringToH3 b)))
        (buffers (kmlArg_found p) stdin).
Proof.
  intros Hrc Hi; unfold buffers.
  destruct (read_loop (S (length (pending stdin))) (kmlArg_found p) stdin)
    as [[t s] e] eqn:El.
  rewrite (main_from_stream _ _ _ _ _ Hrc Hi El); cbn [trace fst].
  autorewrite with trace.
  rewrite !filter_app, header_events_points, footer_events_points.
  rewrite (read_loop_stdout _ _ _ _ _ _ El), app_nil_r.
  apply points_filter.
Qed.

(** X4: the filter works line by line: on an input made of whole lines [a]
    followed by [b], the buffers read, and so the points displayed, are
    those of [a] followed by those of [b]. *)
Theorem stream_of_appended_inputs (p : parsed) (a b : string)
  (e : stream_end) :
  rc p = 0%Z -> indexArg_found p = false -> ends_line a = true ->
  let run_on := fun data => main_from p (stream_of data e) in
  reads (trace (run_on (a ++ b)%string))
  = reads (trace (run_on a)) ++ reads (trace (run_on b))
  /\ filter is_point (stdout (trace (run_on (a ++ b)%string)))
     = filter is_point (stdout (trace (run_on a)))
       ++ filter is_point (stdout (trace (run_on b))).
Proof.
  intros Hrc Hi Ha run_on; subst run_on; cbv beta.
  rewrite !(main_from_reads _ _ Hrc Hi), !(stream_points _ _ Hrc Hi).
  unfold stream_of.
  rewrite (buffers_append _ (length a) a (Nat.le_refl _) Ha).
  split; [reflexivity | apply map_app].
Qed.

(** ** The pieces of a line *)

Lemma drop_length (n : nat) (s : string) : length (drop n s) = length s - n.
Proof.
  revert s; induction n as [|n IH]; intros [|c s]; cbn [drop length];
    try reflexivity.
  apply IH.
Qed.

Lemma ends_line_nl (d : string) : ends_line (d ++ nl) = true.
Proof.
  induction d as [|c d IH]; [reflexivity|].
  cbn [append ends_line]; destruct (d ++ nl)%string eqn:E; [|exact IH].
  destruct d; discriminate E.
Qed.

(** A line of [L] characters and its newline, alone on the stream, is read
    in [L / (BUFF_SIZE - 1) + 1] pieces. *)
Lemma buffers_line_count (k : bool) (n : nat) (d : string) :
  length d <= n -> lacks newline d = true ->
  forall e fe fr,
    List.length (buffers k (mkFILE (d ++ nl) e fe fr))
    = length d / (BUFF_SIZE - 1) + 1.
Proof.
  revert d; induction n as [n IH] using lt_wf_ind; intros d Hn Hd e fe fr.
  rewrite buffers_unfold.
  change (d ++ nl)%string with (d ++ nl ++ "")%string.
  rewrite (fgets_line _ _ _ _ _ Hd).
  destruct (length d <? BUFF_SIZE - 1)%nat eqn:El.
  - apply Nat.ltb_lt in El.
    rewrite buffers_empty, Nat.div_small by exact El; reflexivity.
  - apply Nat.ltb_ge in El.
    change (drop (BUFF_SIZE - 1) d ++ nl ++ "")%string
      with (drop (BUFF_SIZE - 1) d ++ nl)%string.
    cbn [List.length].
    assert (Hlen : length (drop (BUFF_SIZE - 1) d) = length d - (BUFF_SIZE - 1))
      by apply drop_length.
    assert (Hpos : 0 < BUFF_SIZE - 1) by (unfold BUFF_SIZE; lia).
    rewrite (IH (length (drop (BUFF_SIZE - 1) d)) ltac:(lia) _
               (Nat.le_refl _) (lacks_drop _ _ _ Hd)).
    rewrite Hlen.
    replace (length d) with (length d - (BUFF_SIZE - 1) + 1 * (BUFF_SIZE - 1))
      at 2 by lia.
    rewrite Nat.div_add by lia; lia.
Qed.

(** X5: a physical line of [L] characters before its newline is read in
    exactly [L / 255 + 1] pieces and gives that many items, whatever follows
    it on stdin. *)
Theorem pieces_of_a_line (p : parsed) (body rest : string) (e : stream_end) :
  rc p = 0%Z -> indexArg_found p = false -> lacks newline body = true ->
  let r := main_from p (stream_of (body ++ nl ++ rest) e) in
  let after := main_from p (stream_of rest e) in
  List.length (reads (trace r))
  = length body / (BUFF_SIZE - 1) + 1 + List.length (reads (trace after))
  /\ List.length (filter is_point (stdout (trace r)))
     = length body / (BUFF_SIZE - 1) + 1
       + List.length (filter is_point (stdout (trace after))).
Proof.
  intros Hrc Hi Hb r after; subst r after.
  rewrite !(stream_points _ _ Hrc Hi), !length_map.
  rewrite !(main_from_reads _ _ Hrc Hi).
  unfold stream_of; rewrite <- append_assoc.
  rewrite (buffers_append _ (length (body ++ nl)) _ (Nat.le_refl _)
             (ends_line_nl body)).
  rewrite length_app.
  rewrite (buffers_line_count _ (length body) _ (Nat.le_refl _) Hb).
  split; reflexivity.
Qed.

(** ** An unfinished last line *)

Lemma read_line_short (n : nat) (s : string) :
  lacks newline s = true -> length s < n -> read_line n s = (s, ""%string, true).
Proof.
  revert s; induction n as [|n IH]; intros s Hs Hn; [lia|].
  destruct s as [|c s]; [reflexivity|].
  cbn [lacks] in Hs; apply andb_true_iff in Hs as [Hc Hs].
  apply negb_true_iff in Hc.
  cbn [read_line]; rewrite Hc, (IH s Hs) by (simpl in Hn; lia); reflexivity.
Qed.

Lemma buffers_short_tail (k : bool) (c : ascii) (tail : string)
  (fe fr : bool) :
  lacks newline (String c tail) = true ->
  length (String c tail) < BUFF_SIZE - 1 ->
  buffers k (mkFILE (String c tail) ReadError fe fr) = []
  /\ buffers k (mkFILE (String c tail) EndOfFile fe fr) = [String c tail].
Proof.
  intros Hl Hn; split; rewrite buffers_unfold; unfold fgets;
    cbn [pending at_end eof_indicator error_indicator];
    rewrite (read_line_short _ _ Hl Hn); [reflexivity|].
  rewrite buffers_empty; reflexivity.
Qed.

(** X6: a last line that has no newline and is shorter than the buffer is
    processed when stdin ends with end-of-file, and is dropped when reading
    fails after it; the whole lines before it are processed either way. *)
Theorem unfinished_last_line (p : parsed) (whole : string) (c : ascii)
  (tail : string) :
  rc p = 0%Z -> indexArg_found p = false ->
  ends_line whole = true ->
  lacks newline (String c tail) = true ->
  length (String c tail) < BUFF_SIZE - 1 ->
  let run_on := fun data e => main_from p (stream_of data e) in
  reads (trace (run_on (whole ++ String c tail)%string EndOfFile))
  = reads (trace (run_on whole EndOfFile)) ++ [String c tail]
  /\ reads (trace (run_on (whole ++ String c tail)%string ReadError))
     = reads (trace (run_on whole EndOfFile))
  /\ ending (run_on (whole ++ String c tail)%string ReadError) = Aborted.
Proof.
  intros Hrc Hi Hw Hl Hn run_on; subst run_on; cbv beta.
  rewrite !(main_from_reads _ _ Hrc Hi); unfold stream_of.
  rewrite !(buffers_append _ (length whole) whole (Nat.le_refl _) Hw).
  destruct (buffers_short_tail (kmlArg_found p) c tail false false Hl Hn)
    as [He Hf].
  rewrite He, Hf, app_nil_r.
  split; [reflexivity|].
  split.
  - apply (buffers_whole _ (length whole) whole (Nat.le_refl _) Hw).
  - destruct (read_loop
                (S (length (pending (mkFILE (whole ++ String c tail)
                                            ReadError false false))))
                (kmlArg_found p)
                (mkFILE (whole ++ String c tail) ReadError false false))
      as [[t s] le] eqn:El.
    rewrite (main_from_stream _ _ _ _ _ Hrc Hi El); cbn [ending].
    destruct (read_loop_error _ _
                (mkFILE (whole ++ String c tail) ReadError false false)
                (Nat.lt_succ_diag_r _) eq_refl eq_refl _ _ _ El) as (-> & _).
    reflexivity.
Qed.

(** ** Library functions a run does not use *)

Lemma read_loop_plain_h3ToString (f : H3Index -> nat -> string)
  (fuel : nat) (stdin : FILE) :
  @read_loop (with_h3ToString api f) fuel false stdin
  = @read_loop api fuel false stdin.
Proof.
  revert stdin; induction fuel as [|fuel IH]; intros stdin; [reflexivity|].
  cbn [read_loop].
  destruct (fgets BUFF_SIZE stdin) as [[b|] s1]; [|reflexivity].
  rewrite IH; reflexivity.
Qed.

(** X7: in plain-text mode a run does not depend on [h3ToString]: with any
    other function in its place the run is the same. *)
Theorem plain_text_ignores_h3ToString (f : H3Index -> nat -> string)
  (p : parsed) (stdin : FILE) :
  kmlArg_found p = false ->
  @main_from (with_h3ToString api f) p stdin = @main_from api p stdin.
Proof.
  intros H; unfold main_from; rewrite H.
  rewrite read_loop_plain_h3ToString; reflexivity.
Qed.

End Further.

(** The further properties at the sample inputs. *)

(** A line that starts with a NUL character fills [buff] with four
    characters, of which [stringToH3] reads the empty C string. *)
Example buffer_starting_with_NUL :
  let line := String NUL ("8a2" ++ nl) in
  reads (trace (@main_from sample_api plain_stream (stream_of line EndOfFile)))
  = [line]
  /\ c_str line = ""%string.
Proof. vm_compute; split; reflexivity. Qed.

Lemma stream_reads_whole_input_witness :
  rc plain_stream = 0%Z /\ indexArg_found plain_stream = false
  /\ at_end sample_stdin = EndOfFile
  /\ cat (reads (trace (@main_from sample_api plain_stream sample_stdin)))
     = pending sample_stdin.
Proof.
  split; [reflexivity|].
  split; [reflexivity|].
  split; [reflexivity|].
  exact (proj1 (@stream_reads_whole_input sample_api plain_stream sample_stdin
                  eq_refl eq_refl eq_refl)).
Defined.

Lemma stream_of_appended_inputs_witness :
  rc kml_stream = 0%Z /\ indexArg_found kml_stream = false
  /\ ends_line long_line = true
  /\ reads (trace (@main_from sample_api kml_stream
                     (stream_of (long_line ++ sample_line) EndOfFile)))
     = reads (trace (@main_from sample_api kml_stream
                       (stream_of long_line EndOfFile)))
       ++ reads (trace (@main_from sample_api kml_stream
                          (stream_of sample_line EndOfFile))).
Proof.
  split; [reflexivity|].
  split; [reflexivity|].
  split; [vm_compute; reflexivity|].
  exact (proj1 (@stream_of_appended_inputs sample_api kml_stream long_line
                  sample_line EndOfFile eq_refl eq_refl
                  ltac:(vm_compute; reflexivity))).
Defined.

Lemma pieces_of_a_line_witness :
  rc plain_stream = 0%Z /\ indexArg_found plain_stream = false
  /\ lacks newline long_body = true
  /\ List.length
       (reads (trace (@main_from sample_api plain_stream
                        (stream_of (long_body ++ nl ++ sample_line)
                                   EndOfFile))))
     = length long_body / (BUFF_SIZE - 1) + 1
       + List.length
           (reads (trace (@main_from sample_api plain_stream
                            (stream_of sample_line EndOfFile)))).
Proof.
  split; [reflexivity|].
  split; [reflexivity|].
  split; [vm_compute; reflexivity|].
  exact (proj1 (@pieces_of_a_line sample_api plain_stream long_body
                  sample_line EndOfFile eq_refl eq_refl
                  ltac:(vm_compute; reflexivity))).
Defined.

Lemma unfinished_last_line_witness :
  rc plain_stream = 0%Z /\ indexArg_found plain_stream = false
  /\ ends_line sample_line = true
  /\ lacks newline "8a2a" = true
  /\ length "8a2a" < BUFF_SIZE - 1
  /\ reads (trace (@main_from sample_api plain_stream
                     (stream_of (sample_line ++ "8a2a") ReadError)))
     = reads (trace (@main_from sample_api plain_stream
                       (stream_of sample_line EndOfFile))).
Proof.
  split; [reflexivity|].
  split; [reflexivity|].
  split; [vm_compute; reflexivity|].
  split; [vm_compute; reflexivity|].
  split; [vm_compute; lia|].
  exact (proj1 (proj2 (@unfinished_last_line sample_api plain_stream
                         sample_line "8"%char "a2a" eq_refl eq_refl
                         ltac:(vm_compute; reflexivity)
                         ltac:(vm_compute; reflexivity)
                         ltac:(vm_compute; lia)))).
Defined.

Lemma plain_text_ignores_h3ToString_witness :
  kmlArg_found plain_stream = false
  /\ @main_from (with_h3ToString sample_api (fun _ _ => ""%string))
        plain_stream sample_stdin
     = @main_from sample_api plain_stream sample_stdin.
Proof.
  split; [reflexivity|].
  exact (@plain_text_ignores_h3ToString sample_api (fun _ _ => ""%string)
           plain_stream sample_stdin eq_refl).
Defined.

(** * The order of the outputs *)

Section Order.
Context `{api : H3Api}.

Lemma physical_lines_append (a b : string) :
  ends_line a = true ->
  physical_lines (a ++ b) = physical_lines a ++ physical_lines b.
Proof.
  induction a as [|c a IH]; [reflexivity|].
  intros Ha; cbn [append physical_lines].
  destruct a as [|d a].
  - cbn in Ha; rewrite Ha; reflexivity.
  - specialize (IH Ha).
    destruct (c =? newline)%char; [rewrite IH; reflexivity|].
    rewrite IH.
    destruct (physical_lines (String d a)) as [|l ls] eqn:E;
      [apply physical_lines_nil in E; discriminate E | reflexivity].
Qed.

Lemma physical_lines_unfinished (c : ascii) (t : string) :
  lacks newline (String c t) = true ->
  physical_lines (String c t) = [String c t].
Proof.
  revert c; induction t as [|d t IH]; intros c H; cbn [lacks] in H;
    apply andb_true_iff in H as [Hc Ht]; apply negb_true_iff in Hc.
  - cbn [physical_lines]; rewrite Hc; reflexivity.
  - specialize (IH d Ht).
    remember (String d t) as r eqn:Er.
    cbn [physical_lines]; rewrite Hc, IH; reflexivity.
Qed.

(** Every input is whole lines followed by a piece with no newline. *)
Lemma whole_lines_and_tail (s : string) :
  exists whole tail,
    s = (whole ++ tail)%string /\ ends_line whole = true
    /\ lacks newline tail = true.
Proof.
  induction s as [|c s (whole & tail & -> & Hw & Ht)].
  - exists ""%string, ""%string; repeat split.
  - destruct whole as [|d whole].
    + destruct (c =? newline)%char eqn:Ec.
      * exists (String c ""), tail; cbn [append ends_line]; rewrite Ec.
        repeat split; exact Ht.
      * exists ""%string, (String c tail); cbn [append lacks]; rewrite Ec.
        repeat split; exact Ht.
    + exists (String c (String d whole)), tail; repeat split; assumption.
Qed.

Lemma read_line_exact (s : string) :
  lacks newline s = true -> read_line (length s) s = (s, ""%string, false).
Proof.
  induction s as [|c s IH]; [reflexivity|].
  cbn [lacks]; intros H; apply andb_true_iff in H as [Hc Hs].
  apply negb_true_iff in Hc.
  cbn [length read_line]; rewrite Hc, (IH Hs); reflexivity.
Qed.

(** A last piece with no newline that fills the buffer is read even when
    reading fails after it. *)
Lemma buffers_full_tail (k : bool) (tail : string) (e : stream_end)
  (fe fr : bool) :
  lacks newline tail = true -> length tail = BUFF_SIZE - 1 ->
  buffers k (mkFILE tail e fe fr) = [tail].
Proof.
  intros Hl Hn; rewrite buffers_unfold; unfold fgets.
  cbn [pending at_end eof_indicator error_indicator].
  rewrite <- Hn, (read_line_exact _ Hl), buffers_empty; reflexivity.
Qed.

Lemma buffers_physical (k : bool) (s : string) (fe fr : bool) :
  Forall fits_buffer (physical_lines s) ->
  buffers k (mkFILE s EndOfFile fe fr) = physical_lines s.
Proof.
  intros H; unfold buffers.
  exact (read_loop_physical _ k (mkFILE s EndOfFile fe fr)
           (Nat.lt_succ_diag_r _) eq_refl H).
Qed.

(** The buffers read are the physical lines when these fit the buffer, but
    for a last line with no newline that is lost when reading fails. *)
Lemma buffers_are_lines (k : bool) (stdin : FILE) :
  Forall fits_buffer (physical_lines (pending stdin)) ->
  exists dropped,
    physical_lines (pending stdin) = buffers k stdin ++ dropped
    /\ List.length dropped <= 1
    /\ Forall (fun l => lacks newline l = true) dropped
    /\ (at_end stdin = EndOfFile -> dropped = []).
Proof.
  destruct stdin as [data e fe fr]; cbn [pending at_end]; intros Hfit.
  destruct e.
  - exists []; rewrite (buffers_physical _ _ _ _ Hfit), app_nil_r.
    split; [reflexivity|].
    split; [apply Nat.le_0_l|].
    split; [constructor | reflexivity].
  - destruct (whole_lines_and_tail data) as (whole & tail & -> & Hw & Ht).
    rewrite (physical_lines_append _ tail Hw) in *.
    apply Forall_app in Hfit as [Hfw Hft].
    rewrite (buffers_append k (length whole) whole (Nat.le_refl _) Hw).
    rewrite (buffers_whole k (length whole) whole (Nat.le_refl _) Hw
               ReadError fe fr EndOfFile fe fr).
    rewrite (buffers_physical _ _ _ _ Hfw).
    destruct tail as [|c tail].
    + exists []; rewrite buffers_empty; cbn [physical_lines].
      split; [now rewrite !app_nil_r|].
      split; [apply Nat.le_0_l|].
      split; [constructor | discriminate].
    + rewrite (physical_lines_unfinished _ _ Ht) in *.
      apply Forall_inv in Hft; unfold fits_buffer in Hft.
      destruct (Nat.eq_dec (length (String c tail)) (BUFF_SIZE - 1)) as [E|E].
      * exists []; rewrite (buffers_full_tail _ _ _ _ _ Ht E).
        split; [now rewrite app_nil_r|].
        split; [apply Nat.le_0_l|].
        split; [constructor | discriminate].
      * destruct (buffers_short_tail k c tail fe fr Ht ltac:(lia)) as [Hb _].
        exists [String c tail]; rewrite Hb.
        split; [now rewrite app_nil_r|].
        split; [apply Nat.le_refl|].
        split; [|discriminate].
        constructor; [exact Ht | constructor].
Qed.

(** C7, as amended: the outputs follow the reads: each buffer read from
    stdin is followed at once by the one item made from it, so the items come
    in the order of the input.  When every line fits the buffer the buffers
    are the input lines, one item per line, but for a last line with no
    newline when reading fails after it.  In KML mode the items are the
    placemarks after the header, and before the footer when the run ends
    normally. *)
Theorem outputs_in_read_order (p : parsed) (stdin : FILE) :
  rc p = 0%Z -> indexArg_found p = false ->
  let r := main_from p stdin in
  let k := kmlArg_found p in
  let bs := reads (trace r) in
  let point := fun b => display k (h3ToString (stringToH3 b) BUFF_SIZE)
                                (degrees (stringToH3 b)) in
  (exists rest, pending stdin = (cat bs ++ rest)%string)
  /\ (forall b, iteration k b = [Read (Some b); Out (point b)])
  /\ (exists last,
        trace r = header_events p ++ flat_map (iteration k) bs ++ last
        /\ reads last = []
        /\ filter is_point (stdout last) = [])
  /\ filter is_point (stdout (trace r)) = map point bs
  /\ (forall i b, nth_error bs i = Some b ->
                  nth_error (filter is_point (stdout (trace r))) i
                  = Some (point b))
  /\ (k = true ->
      stdout (trace r)
      = KmlHeader (header_name p) (header_desc p)
        :: map point bs
           ++ match ending r with
              | EndOfMain => [KmlFooter]
              | _ => []
              end)
  /\ (Forall fits_buffer (physical_lines (pending stdin)) ->
      exists dropped,
        physical_lines (pending stdin) = bs ++ dropped
        /\ List.length dropped <= 1
        /\ Forall (fun l => lacks newline l = true) dropped
        /\ (at_end stdin = EndOfFile -> dropped = [])).
Proof.
  intros Hrc Hi r k bs point; subst r bs.
  pose proof (main_from_reads p stdin Hrc Hi) as Hbuf.
  destruct (read_loop (S (length (pending stdin))) (kmlArg_found p) stdin)
    as [[t s] e] eqn:El.
  rewrite (main_from_stream _ _ _ _ _ Hrc Hi El) in *; cbn [trace ending] in *.
  pose proof (read_loop_shape _ _ _ _ _ _ El) as Ht.
  pose proof (read_loop_stdout _ _ _ _ _ _ El) as Ho.
  pose proof (read_loop_consumes _ _ _ _ _ _ El) as Hc.
  assert (Hreads : reads (header_events p ++ t ++ footer_events p e) = reads t)
    by (autorewrite with trace; reflexivity).
  assert (Hpoints : filter is_point
                      (stdout (header_events p ++ t ++ footer_events p e))
                    = map point (reads t)).
  { autorewrite with trace.
    rewrite !filter_app, header_events_points, footer_events_points, Ho.
    rewrite app_nil_r; apply points_filter. }
  rewrite Hreads in *; rewrite Hpoints.
  split; [exact Hc|].
  split; [intros b; unfold iteration; now rewrite doCell_display|].
  split.
  { exists (closing e ++ footer_events p e); repeat split.
    - rewrite Ht at 1; rewrite <- app_assoc; reflexivity.
    - now rewrite reads_app, closing_reads, footer_events_reads.
    - rewrite stdout_app, closing_stdout; cbn [app].
      apply footer_events_points. }
  split; [reflexivity|].
  split; [intros i b Hb; now apply map_nth_error|].
  split.
  - intros Hk; subst k.
    autorewrite with trace.
    rewrite header_events_stdout, footer_events_stdout, Ho.
    subst point; cbv beta; rewrite Hk.
    destruct e; reflexivity.
  - intros Hfit; rewrite Hbuf; apply buffers_are_lines; exact Hfit.
Qed.

End Order.

Lemma outputs_in_read_order_witness :
  rc kml_stream = 0%Z /\ indexArg_found kml_stream = false
  /\ stdout (trace (@main_from sample_api kml_stream
                      (stream_of (sample_line ++ "8a2a") ReadError)))
     = [KmlHeader "geo from H3" "from h3ToGeo";
        display true
          (@h3ToString sample_api (@stringToH3 sample_api sample_line)
             BUFF_SIZE)
          (@degrees sample_api (@stringToH3 sample_api sample_line))]
  /\ exists dropped,
       physical_lines (sample_line ++ "8a2a")
       = reads (trace (@main_from sample_api kml_stream
                         (stream_of (sample_line ++ "8a2a") ReadError)))
         ++ dropped
       /\ List.length dropped <= 1.
Proof.
  split; [reflexivity|].
  split; [reflexivity|].
  destruct (@outputs_in_read_order sample_api kml_stream
              (stream_of (sample_line ++ "8a2a") ReadError) eq_refl eq_refl)
    as (_ & _ & _ & _ & _ & Hk & Hl).
  split.
  - rewrite (Hk eq_refl); vm_compute; reflexivity.
  - destruct (Hl ltac:(unfold fits_buffer; vm_compute;
                       repeat (constructor; try lia)))
      as (dropped & Hd & Hn & _).
    exists dropped; split; assumption.
Defined.
